(** * Physics-Engine: the simulation step of [PhysicsEngine.tsx]

    A shallow embedding of the body store ([addBody], [clearBodies]) and of
    [updatePhysics] (integrator, pairwise collision response, boundary
    handling), followed by the properties of the engine.

    The engine computes on JavaScript numbers.  The code is embedded once,
    over an interface [JSNumber] of the arithmetic it uses, and read at two
    instances:
    - [R_JSNumber]: exact real arithmetic, for the algebraic properties
      (momentum, energy, containment); rounding is not modelled there;
    - [float_JSNumber]: IEEE-754 binary64 ([PrimFloat]), the numbers the
      program really runs on, for the behaviour on NaN and for running the
      step on concrete inputs. *)

From Stdlib Require Import Floats.
From Stdlib Require Import String Bool ZArith Lia Reals Lra Psatz.
From stdpp Require Import base list.

Set Default Proof Using "Type".
Set Warnings "-inexact-float".

(** ** Numbers *)

Declare Scope js_scope.
Delimit Scope js_scope with js.

(** The operations and literals [PhysicsEngine.tsx] applies to numbers. *)
Class JSNumber (num : Type) := {
  lit_0 : num;                      (* 0 *)
  lit_1 : num;                      (* 1 *)
  lit_2 : num;                      (* 2 *)
  lit_0_1 : num;                    (* 0.1 *)
  lit_0_9 : num;                    (* 0.9 *)
  nadd : num -> num -> num;         (* a + b *)
  nsub : num -> num -> num;         (* a - b *)
  nmul : num -> num -> num;         (* a * b *)
  ndiv : num -> num -> num;         (* a / b *)
  nneg : num -> num;                (* -a *)
  nabs : num -> num;                (* Math.abs(a) *)
  nsqrt : num -> num;               (* Math.sqrt(a) *)
  nlt : num -> num -> bool;         (* a < b *)
  nle : num -> num -> bool;         (* a <= b *)
  ntruthy : num -> bool             (* ToBoolean(a): neither 0 nor NaN *)
}.

Notation "a + b" := (nadd a b) : js_scope.
Notation "a - b" := (nsub a b) : js_scope.
Notation "a * b" := (nmul a b) : js_scope.
Notation "a / b" := (ndiv a b) : js_scope.
Notation "- a" := (nneg a) : js_scope.
Notation "a <? b" := (nlt a b) : js_scope.
Notation "a >? b" := (nlt b a) : js_scope.
Notation "a <=? b" := (nle a b) : js_scope.
Notation "a >=? b" := (nle b a) : js_scope.

(** ** The engine, over any number type *)

Section Engine.
Context {num : Type} `{JSNumber num}.
Local Open Scope js_scope.

(** [interface Vector2D] *)
Record Vector2D : Type := mkVector2D { x : num; y : num }.

(** [interface Body] *)
Record Body : Type := mkBody {
  id : string;
  position : Vector2D;
  velocity : Vector2D;
  acceleration : Vector2D;
  mass : num;
  radius : num;
  color : string
}.

(** The canvas element, as far as the engine reads it. *)
Record Canvas : Type := mkCanvas { width : num; height : num }.

(** The component state captured by the [updatePhysics] closure. *)
Record Params : Type := mkParams {
  gravityMagnitude : num;
  frictionEnabled : bool;
  elasticity : num
}.

(** [const GRAVITY = { x: 0, y: gravityMagnitude }] *)
Definition GRAVITY (p : Params) : Vector2D :=
  {| x := lit_0; y := gravityMagnitude p |}.

(** [a ** 2], read as the product [a * a]. *)
Definition sq (a : num) : num := a * a.

(** [v || 0] for an optional number [v]. *)
Definition orZero (v : option num) : num :=
  match v with
  | Some n => if ntruthy n then n else lit_0
  | None => lit_0
  end.

(** [canvasRef.current?.height || 0] and [canvasRef.current?.width || 0] *)
Definition canvasHeight (canvas : option Canvas) : num :=
  orZero (height <$> canvas).
Definition canvasWidth (canvas : option Canvas) : num :=
  orZero (width <$> canvas).

(** *** Integrator: the callback of [bodiesRef.current.map] *)

(** [forceX / body.mass] and [forceY / body.mass] *)
Definition gravityAcceleration (p : Params) (body : Body) : Vector2D :=
  let forceX := mass body * x (GRAVITY p) in
  let forceY := mass body * y (GRAVITY p) in
  {| x := forceX / mass body; y := forceY / mass body |}.

(** The velocity after gravity, before friction. *)
Definition gravityVelocity (p : Params) (deltaTime : num) (body : Body)
  : Vector2D :=
  let a := gravityAcceleration p body in
  {| x := x (velocity body) + x a * deltaTime;
     y := y (velocity body) + y a * deltaTime |}.

(** The guard commented [// On the ground]. *)
Definition onGround (canvas : option Canvas) (body : Body) : bool :=
  y (position body) + radius body >=? canvasHeight canvas - lit_1.

(** The guard commented [// Against a wall]. *)
Definition againstWall (canvas : option Canvas) (body : Body) : bool :=
  (x (position body) + radius body >=? canvasWidth canvas - lit_1)
  || (x (position body) - radius body <=? lit_1).

Definition frictionCoefficient : num := lit_0_9.

(** [if (frictionEnabled) { ... }] applied to the new velocity. *)
Definition applyFriction (canvas : option Canvas) (p : Params)
    (body : Body) (v : Vector2D) : Vector2D :=
  if frictionEnabled p then
    let newVelocityX :=
      if onGround canvas body then x v * frictionCoefficient else x v in
    let newVelocityY :=
      if againstWall canvas body then y v * frictionCoefficient else y v in
    {| x := newVelocityX; y := newVelocityY |}
  else v.

Definition integrate (canvas : option Canvas) (p : Params)
    (deltaTime : num) (body : Body) : Body :=
  let v := applyFriction canvas p body (gravityVelocity p deltaTime body) in
  let newPositionX := x (position body) + x v * deltaTime in
  let newPositionY := y (position body) + y v * deltaTime in
  {| id := id body;
     position := {| x := newPositionX; y := newPositionY |};
     velocity := v;
     acceleration := acceleration body;
     mass := mass body;
     radius := radius body;
     color := color body |}.

(** *** Collision detection and response for one pair *)

Definition distance (bodyA bodyB : Body) : num :=
  nsqrt (sq (x (position bodyA) - x (position bodyB))
         + sq (y (position bodyA) - y (position bodyB))).

(** [distance < bodyA.radius + bodyB.radius] *)
Definition colliding (bodyA bodyB : Body) : bool :=
  distance bodyA bodyB <? radius bodyA + radius bodyB.

Definition normal (bodyA bodyB : Body) : Vector2D :=
  {| x := (x (position bodyB) - x (position bodyA)) / distance bodyA bodyB;
     y := (y (position bodyB) - y (position bodyA)) / distance bodyA bodyB |}.

(** [dotProduct]: the relative velocity along the normal. *)
Definition dotProduct (bodyA bodyB : Body) : num :=
  let relativeVelocityX := x (velocity bodyB) - x (velocity bodyA) in
  let relativeVelocityY := y (velocity bodyB) - y (velocity bodyA) in
  relativeVelocityX * x (normal bodyA bodyB)
  + relativeVelocityY * y (normal bodyA bodyB).

Definition impulse (e : num) (bodyA bodyB : Body) : num :=
  (- (lit_1 + e) * dotProduct bodyA bodyB)
  / (lit_1 / mass bodyA + lit_1 / mass bodyB).

Definition setVelocity (body : Body) (v : Vector2D) : Body :=
  {| id := id body; position := position body; velocity := v;
     acceleration := acceleration body; mass := mass body;
     radius := radius body; color := color body |}.

Definition setPosition (body : Body) (q : Vector2D) : Body :=
  {| id := id body; position := q; velocity := velocity body;
     acceleration := acceleration body; mass := mass body;
     radius := radius body; color := color body |}.

(** The four velocity assignments of the impulse. *)
Definition applyImpulse (e : num) (bodyA bodyB : Body) : Body * Body :=
  let n := normal bodyA bodyB in
  let impulseX := impulse e bodyA bodyB * x n in
  let impulseY := impulse e bodyA bodyB * y n in
  (setVelocity bodyA
     {| x := x (velocity bodyA) - impulseX / mass bodyA;
        y := y (velocity bodyA) - impulseY / mass bodyA |},
   setVelocity bodyB
     {| x := x (velocity bodyB) + impulseX / mass bodyB;
        y := y (velocity bodyB) + impulseY / mass bodyB |}).

(** [// Separate bodies to prevent sticking]: [ab] is the pair as the impulse
    left it; [normal] and [distance] were computed before it. *)
Definition separate (bodyA bodyB : Body) (ab : Body * Body) : Body * Body :=
  let n := normal bodyA bodyB in
  let overlap := radius bodyA + radius bodyB - distance bodyA bodyB in
  let separationX := (overlap / lit_2) * x n in
  let separationY := (overlap / lit_2) * y n in
  (setPosition (fst ab)
     {| x := x (position (fst ab)) - separationX;
        y := y (position (fst ab)) - separationY |},
   setPosition (snd ab)
     {| x := x (position (snd ab)) + separationX;
        y := y (position (snd ab)) + separationY |}).

(** The body of the two nested loops, for the pair [(bodyA, bodyB)]. *)
Definition resolvePair (e : num) (bodyA bodyB : Body) : Body * Body :=
  if colliding bodyA bodyB then
    if dotProduct bodyA bodyB <? lit_0 then
      separate bodyA bodyB (applyImpulse e bodyA bodyB)
    else (bodyA, bodyB)
  else (bodyA, bodyB).

(** *** The pair loops over the array

    [bodiesRef.current[i]] and [[j]] are distinct objects (the integrator's
    [map] has just built them), so mutating them is updating the two
    slots.  The loop bounds keep both indices in range. *)
Definition collidePair (e : num) (i j : nat) (bodies : list Body)
  : list Body :=
  match bodies !! i, bodies !! j with
  | Some bodyA, Some bodyB =>
      let ab := resolvePair e bodyA bodyB in
      <[j := snd ab]> (<[i := fst ab]> bodies)
  | _, _ => bodies
  end.

(** [for (let j = i + 1; j < length; j++)] *)
Definition collideRow (e : num) (bodies : list Body) (i : nat) : list Body :=
  foldl (fun bs j => collidePair e i j bs) bodies
        (seq (S i) (length bodies - S i)).

(** [for (let i = 0; i < length; i++)] *)
Definition collideAll (e : num) (bodies : list Body) : list Body :=
  foldl (collideRow e) bodies (seq 0 (length bodies)).

(** *** Boundary handling: the callback of [bodiesRef.current.forEach] *)

(** [v *= -elasticity; if (Math.abs(v) < 0.1) v = 0;] *)
Definition bounce (e : num) (v : num) : num :=
  let v' := v * - e in
  if nabs v' <? lit_0_1 then lit_0 else v'.

Definition floorWall (e : num) (c : Canvas) (body : Body) : Body :=
  if y (position body) + radius body >? height c then
    setVelocity
      (setPosition body {| x := x (position body);
                           y := height c - radius body |})
      {| x := x (velocity body); y := bounce e (y (velocity body)) |}
  else body.

Definition ceilingWall (e : num) (body : Body) : Body :=
  if y (position body) - radius body <? lit_0 then
    setVelocity
      (setPosition body {| x := x (position body); y := radius body |})
      {| x := x (velocity body); y := bounce e (y (velocity body)) |}
  else body.

Definition rightWall (e : num) (c : Canvas) (body : Body) : Body :=
  if x (position body) + radius body >? width c then
    setVelocity
      (setPosition body {| x := width c - radius body;
                           y := y (position body) |})
      {| x := bounce e (x (velocity body)); y := y (velocity body) |}
  else body.

Definition leftWall (e : num) (body : Body) : Body :=
  if x (position body) - radius body <? lit_0 then
    setVelocity
      (setPosition body {| x := radius body; y := y (position body) |})
      {| x := bounce e (x (velocity body)); y := y (velocity body) |}
  else body.

Definition boundary (canvas : option Canvas) (e : num) (body : Body)
  : Body :=
  match canvas with
  | None => body                                  (* if (!canvas) return; *)
  | Some c =>
      leftWall e (rightWall e c (ceilingWall e (floorWall e c body)))
  end.

(** What a tick is not meant to touch: everything but position and
    velocity. *)
Definition frame (body : Body) : string * num * num * string * Vector2D :=
  (id body, mass body, radius body, color body, acceleration body).

(** *** One tick *)

Definition updatePhysics (canvas : option Canvas) (p : Params)
    (deltaTime : num) (bodies : list Body) : list Body :=
  let integrated := integrate canvas p deltaTime <$> bodies in
  let collided := collideAll (elasticity p) integrated in
  boundary canvas (elasticity p) <$> collided.

(** *** The body store

    [Math.random()] is an input of [addBody] (the draw [rnd]) and
    [Number.prototype.toString(36)] a parameter of the model. *)
Section Store.
Variable toString36 : num -> string.

(** [Math.random().toString(36).substr(2, 9)] *)
Definition freshId (rnd : num) : string :=
  substring 2 9 (toString36 rnd).

(** [{ ...newBody, id: ... }]: [newBody] is a body whose [id] is not
    read. *)
Definition withId (newBody : Body) (i : string) : Body :=
  {| id := i; position := position newBody; velocity := velocity newBody;
     acceleration := acceleration newBody; mass := mass newBody;
     radius := radius newBody; color := color newBody |}.

(** [bodiesRef.current.push(...)] *)
Definition addBody (rnd : num) (newBody : Body) (bodies : list Body)
  : list Body :=
  bodies ++ [withId newBody (freshId rnd)].

(** [bodiesRef.current = []] *)
Definition clearBodies (bodies : list Body) : list Body := [].
End Store.

End Engine.

Arguments Vector2D num : clear implicits.
Arguments Body num : clear implicits.
Arguments Canvas num : clear implicits.
Arguments Params num : clear implicits.

(** ** Exact real arithmetic

    The reading of the engine without rounding, overflow or NaN.  It is not
    what the program runs on: a theorem at this instance is a statement of
    exact arithmetic and says so, and where binary64 departs from it the
    departure is shown on [float_JSNumber]. *)

#[export] Instance Rlt_decision : RelDecision Rlt := Rlt_dec.
#[export] Instance Rle_decision : RelDecision Rle := Rle_dec.
#[export] Instance Req_decision : EqDecision R := Req_dec_T.

Definition Rltb (a b : R) : bool := bool_decide (a < b)%R.
Definition Rleb (a b : R) : bool := bool_decide (a <= b)%R.
Definition Rtruthy (a : R) : bool := bool_decide (a <> 0%R).

#[export] Instance R_JSNumber : JSNumber R := {|
  lit_0 := 0%R; lit_1 := 1%R; lit_2 := 2%R;
  lit_0_1 := 0.1%R; lit_0_9 := 0.9%R;
  nadd := Rplus; nsub := Rminus; nmul := Rmult; ndiv := Rdiv;
  nneg := Ropp; nabs := Rabs; nsqrt := sqrt;
  nlt := Rltb; nle := Rleb; ntruthy := Rtruthy
|}.

(** ** IEEE-754 binary64 *)

Definition float_truthy (a : float) : bool :=
  negb (PrimFloat.eqb a 0%float) && negb (is_nan a).

#[export] Instance float_JSNumber : JSNumber float := {|
  lit_0 := 0%float; lit_1 := 1%float; lit_2 := 2%float;
  lit_0_1 := 0.1%float; lit_0_9 := 0.9%float;
  nadd := PrimFloat.add; nsub := PrimFloat.sub; nmul := PrimFloat.mul;
  ndiv := PrimFloat.div;
  nneg := PrimFloat.opp; nabs := PrimFloat.abs; nsqrt := PrimFloat.sqrt;
  nlt := PrimFloat.ltb; nle := PrimFloat.leb; ntruthy := float_truthy
|}.

(** ** Observables of the real-number reading *)

Section Observables.
Local Open Scope R_scope.

(** A body lies inside the world rectangle shrunk by its radius. *)
Definition inBounds (c : Canvas R) (b : Body R) : Prop :=
  radius b <= x (position b) <= width c - radius b
  /\ radius b <= y (position b) <= height c - radius b.

(** The body is no wider and no taller than the world. *)
Definition fitsIn (c : Canvas R) (b : Body R) : Prop :=
  2 * radius b <= width c /\ 2 * radius b <= height c.

(** [massA * velA + massB * velB] *)
Definition momentum (bodyA bodyB : Body R) : Vector2D R :=
  {| x := mass bodyA * x (velocity bodyA) + mass bodyB * x (velocity bodyB);
     y := mass bodyA * y (velocity bodyA) + mass bodyB * y (velocity bodyB) |}.

Definition kineticEnergy (b : Body R) : R :=
  mass b * (x (velocity b) * x (velocity b) + y (velocity b) * y (velocity b))
  / 2.

Definition scale (k : R) (v : Vector2D R) : Vector2D R :=
  {| x := k * x v; y := k * y v |}.

End Observables.

(** ** Concrete inputs *)

(** The canvas of the component: [width={800} height={600}]. *)
Definition canvasR : Canvas R := {| width := 800; height := 600 |}%R.

Definition paramsR (g : R) (friction : bool) (e : R) : Params R :=
  {| gravityMagnitude := g; frictionEnabled := friction; elasticity := e |}.

Definition bodyR (px py vx vy m r : R) : Body R :=
  {| id := "b"; position := {| x := px; y := py |};
     velocity := {| x := vx; y := vy |};
     acceleration := {| x := 0; y := 0 |}%R;
     mass := m; radius := r; color := "blue" |}.

(** Two overlapping bodies on one horizontal line, 30 apart, each of radius
    20 and mass [m], moving along the line. *)
Definition leftBody (vx m : R) : Body R := bodyR 100 300 vx 0 m 20.
Definition rightBody (vx m : R) : Body R := bodyR 130 300 vx 0 m 20.

Definition canvasF : Canvas float := {| width := 800; height := 600 |}%float.

Definition paramsF (g : float) (friction : bool) (e : float) : Params float :=
  {| gravityMagnitude := g; frictionEnabled := friction; elasticity := e |}.

Definition bodyF (px py vx vy m r : float) : Body float :=
  {| id := "b"; position := {| x := px; y := py |};
     velocity := {| x := vx; y := vy |};
     acceleration := {| x := 0; y := 0 |}%float;
     mass := m; radius := r; color := "blue" |}.

(** A number that is not NaN, and a body whose position and velocity hold
    none. *)
Definition definedVector (v : Vector2D float) : Prop :=
  is_nan (x v) = false /\ is_nan (y v) = false.

Definition definedState (b : Body float) : Prop :=
  definedVector (position b) /\ definedVector (velocity b).

(** ** Further observables *)

(** [b'] has the mass of [b] and neither velocity component larger in
    size. *)
Definition slower (b' b : Body R) : Prop :=
  (mass b' = mass b
   /\ x (velocity b') * x (velocity b') <= x (velocity b) * x (velocity b)
   /\ y (velocity b') * y (velocity b') <= y (velocity b) * y (velocity b))%R.

(** ** The frame loop and the renderer, over any number type *)

Section Loop.
Context {num : Type} `{JSNumber num}.

(** The literal 1000 of [gameLoop] and the constant [Math.PI] of [draw]. *)
Variable lit_1000 : num.
Variable mathPI : num.

Local Open Scope js_scope.

(** The two refs [gameLoop] works on. *)
Record LoopState : Type := mkLoopState {
  lastTime : num;
  bodiesRef : list (Body num)
}.

(** [if (!lastTime.current) lastTime.current = currentTime;
     const deltaTime = (currentTime - lastTime.current) / 1000;] *)
Definition deltaTime (last currentTime : num) : num :=
  let last' := if negb (ntruthy last) then currentTime else last in
  (currentTime - last') / lit_1000.

(** [gameLoop], as far as the two refs go: [draw] writes to the canvas only
    and [requestAnimationFrame] asks for the next call. *)
Definition gameLoop (canvas : option (Canvas num)) (p : Params num)
    (currentTime : num) (st : LoopState) : LoopState :=
  {| lastTime := currentTime;
     bodiesRef := updatePhysics canvas p (deltaTime (lastTime st) currentTime)
                    (bodiesRef st) |}.

(** The frames the browser delivers, one call of [gameLoop] per timestamp. *)
Definition runFrames (canvas : option (Canvas num)) (p : Params num)
    (timestamps : list num) (st : LoopState) : LoopState :=
  foldl (fun st t => gameLoop canvas p t st) st timestamps.

(** The time step of each frame of a run that starts with [lastTime.current]
    at [last]; [runFrames_steps] shows these are the steps [gameLoop] hands
    to [updatePhysics]. *)
Fixpoint timeSteps (last : num) (timestamps : list num) : list num :=
  match timestamps with
  | [] => []
  | t :: rest => deltaTime last t :: timeSteps t rest
  end.

(** The calls [draw] makes on the 2D context. *)
Inductive DrawCmd : Type :=
  | ClearRect (rx ry rw rh : num)
  | BeginPath
  | Arc (cx cy r startAngle endAngle : num)
  | SetFillStyle (style : string)
  | Fill
  | ClosePath.

(** The callback of [bodiesRef.current.forEach] in [draw]. *)
Definition drawBody (body : Body num) : list DrawCmd :=
  [ BeginPath;
    Arc (x (position body)) (y (position body)) (radius body)
        lit_0 (mathPI * lit_2);
    SetFillStyle (color body);
    Fill;
    ClosePath ].

(** [draw]: nothing without a canvas or without a 2D context ([hasContext]
    tells whether [canvas.getContext('2d')] gave one). *)
Definition draw (canvas : option (Canvas num)) (hasContext : bool)
    (bodies : list (Body num)) : list DrawCmd :=
  match canvas with
  | None => []
  | Some c =>
      if hasContext then
        ClearRect lit_0 lit_0 (width c) (height c)
        :: concat (drawBody <$> bodies)
      else []
  end.

(** What a run of context calls fills: the arcs of the current path, each
    with its centre, radius, start angle and end angle, and the fill style in
    force at each [Fill].  [BeginPath] empties the path, [Arc] adds to it,
    [ClosePath] and [ClearRect] leave path and style. *)
Fixpoint fills (path : list (num * num * num * num * num)) (style : string)
    (cmds : list DrawCmd)
  : list (list (num * num * num * num * num) * string) :=
  match cmds with
  | [] => []
  | BeginPath :: rest => fills [] style rest
  | Arc cx cy r a0 a1 :: rest => fills (path ++ [(cx, cy, r, a0, a1)]) style rest
  | SetFillStyle s :: rest => fills path s rest
  | Fill :: rest => (path, style) :: fills path style rest
  | ClosePath :: rest => fills path style rest
  | ClearRect _ _ _ _ :: rest => fills path style rest
  end.

(** The disc [draw] is to fill for a body: one arc round its position, of
    its radius, from angle 0 to [Math.PI * 2], in its color. *)
Definition discOf (body : Body num)
  : list (num * num * num * num * num) * string :=
  ([(x (position body), y (position body), radius body,
     lit_0, mathPI * lit_2)],
   color body).

End Loop.

Arguments LoopState num : clear implicits.
Arguments DrawCmd num : clear implicits.

(** ** More of the store *)

Section StoreRuns.
Context {num : Type} `{JSNumber num}.
Variable toString36 : num -> string.

(** What the caller of [addBody] passes: every field but the id. *)
Definition givenFields (body : Body num)
  : Vector2D num * Vector2D num * Vector2D num * num * num * string :=
  (position body, velocity body, acceleration body, mass body, radius body,
   color body).

(** A run of [addBody] calls, each with its draw of [Math.random()]. *)
Definition addBodies (calls : list (num * Body num))
    (bodies : list (Body num)) : list (Body num) :=
  foldl (fun bs call => addBody toString36 (fst call) (snd call) bs)
        bodies calls.

End StoreRuns.

(** ** Totals over the store, in exact arithmetic *)

(** The sum of [f] over the bodies. *)
Definition total (f : Body R -> R) (bodies : list (Body R)) : R :=
  foldr (fun b acc => (f b + acc)%R) 0%R bodies.

(** The sum of a list of reals. *)
Definition sumR (l : list R) : R := foldr Rplus 0%R l.

(** ** Observables on binary64, computed as written *)

(** [massA * velA + massB * velB] *)
Definition momentumF (bodyA bodyB : Body float) : Vector2D float :=
  {| x := PrimFloat.add (PrimFloat.mul (mass bodyA) (x (velocity bodyA)))
                        (PrimFloat.mul (mass bodyB) (x (velocity bodyB)));
     y := PrimFloat.add (PrimFloat.mul (mass bodyA) (y (velocity bodyA)))
                        (PrimFloat.mul (mass bodyB) (y (velocity bodyB))) |}.

(** [mass * (vx * vx + vy * vy) / 2] *)
Definition kineticEnergyF (b : Body float) : float :=
  PrimFloat.div
    (PrimFloat.mul (mass b)
       (PrimFloat.add (PrimFloat.mul (x (velocity b)) (x (velocity b)))
                      (PrimFloat.mul (y (velocity b)) (y (velocity b)))))
    2%float.

(** The pair of [leftBody] and [rightBody], on binary64. *)
Definition leftBodyF (vx m : float) : Body float := bodyF 100 300 vx 0 m 20.
Definition rightBodyF (vx m : float) : Body float := bodyF 130 300 vx 0 m 20.

(** * Properties *)

(** ** Facts that hold for every number type *)

Section Frame.
Context {num : Type} `{JSNumber num}.
Implicit Types (body bodyA bodyB : Body num) (bodies : list (Body num)).

Lemma frame_setVelocity body v : frame (setVelocity body v) = frame body.
Proof. reflexivity. Qed.

Lemma frame_setPosition body q : frame (setPosition body q) = frame body.
Proof. reflexivity. Qed.

Lemma frame_integrate canvas p dt body :
  frame (integrate canvas p dt body) = frame body.
Proof. reflexivity. Qed.

Lemma frame_resolvePair e bodyA bodyB :
  frame (fst (resolvePair e bodyA bodyB)) = frame bodyA
  /\ frame (snd (resolvePair e bodyA bodyB)) = frame bodyB.
Proof.
  unfold resolvePair.
  destruct (colliding bodyA bodyB); [|done].
  destruct (nlt (dotProduct bodyA bodyB) lit_0); done.
Qed.

Lemma frame_boundary canvas e body :
  frame (boundary canvas e body) = frame body.
Proof.
  destruct canvas as [c|]; [|done]. unfold boundary.
  assert (Hf : frame (floorWall e c body) = frame body)
    by (unfold floorWall; case (nlt _ _); done).
  assert (Hc : forall b, frame (ceilingWall e b) = frame b)
    by (intros b; unfold ceilingWall; case (nlt _ _); done).
  assert (Hr : forall b, frame (rightWall e c b) = frame b)
    by (intros b; unfold rightWall; case (nlt _ _); done).
  assert (Hl : forall b, frame (leftWall e b) = frame b)
    by (intros b; unfold leftWall; case (nlt _ _); done).
  by rewrite Hl, Hr, Hc, Hf.
Qed.

Lemma frame_collidePair e i j bodies :
  frame <$> collidePair e i j bodies = frame <$> bodies.
Proof.
  unfold collidePair.
  destruct (bodies !! i) as [bodyA|] eqn:Hi; [|done].
  destruct (bodies !! j) as [bodyB|] eqn:Hj; [|done].
  destruct (frame_resolvePair e bodyA bodyB) as [HA HB]. cbn zeta.
  rewrite !list_fmap_insert, HA, HB.
  rewrite (list_insert_id _ i) by (by rewrite list_lookup_fmap, Hi).
  by rewrite list_insert_id by (by rewrite list_lookup_fmap, Hj).
Qed.

(** A loop whose body keeps the frames keeps them. *)
Lemma frame_foldl {A} (f : list (Body num) -> A -> list (Body num)) l :
  (forall bs a, frame <$> f bs a = frame <$> bs) ->
  forall bodies, frame <$> foldl f bodies l = frame <$> bodies.
Proof.
  intros Hf. induction l as [|a l IH]; intros bodies; [done|].
  cbn. by rewrite IH, Hf.
Qed.

Lemma frame_collideRow e bodies i :
  frame <$> collideRow e bodies i = frame <$> bodies.
Proof. apply frame_foldl. intros. apply frame_collidePair. Qed.

Lemma frame_collideAll e bodies :
  frame <$> collideAll e bodies = frame <$> bodies.
Proof. apply frame_foldl. intros. apply frame_collideRow. Qed.

Lemma length_collideAll e bodies :
  length (collideAll e bodies) = length bodies.
Proof.
  by rewrite <- (length_fmap frame), frame_collideAll, length_fmap.
Qed.

(** The loops on two bodies visit the one pair, once. *)
Lemma collideAll_pair e bodyA bodyB :
  collideAll e [bodyA; bodyB]
  = [fst (resolvePair e bodyA bodyB); snd (resolvePair e bodyA bodyB)].
Proof. reflexivity. Qed.

(** On three bodies the pairs come in the order (0,1), (0,2), (1,2), each
    reading what the earlier ones wrote. *)
Lemma collideAll_triple e bodyA bodyB bodyC :
  collideAll e [bodyA; bodyB; bodyC]
  = let ab := resolvePair e bodyA bodyB in
    let ac := resolvePair e (fst ab) bodyC in
    let bc := resolvePair e (snd ab) (snd ac) in
    [fst ac; fst bc; snd bc].
Proof. reflexivity. Qed.

(** C10: a tick keeps the number and the order of the bodies, and the id,
    mass, radius, color and stored acceleration of each of them; only
    positions and velocities change. *)
Theorem updatePhysics_frame canvas p dt bodies :
  frame <$> updatePhysics canvas p dt bodies = frame <$> bodies
  /\ length (updatePhysics canvas p dt bodies) = length bodies.
Proof.
  assert (Hfr : frame <$> updatePhysics canvas p dt bodies = frame <$> bodies).
  { unfold updatePhysics. cbn zeta.
    rewrite <- list_fmap_compose.
    rewrite (list_fmap_ext (frame ∘ boundary canvas (elasticity p)) frame)
      by (intros ? b _; apply frame_boundary).
    rewrite frame_collideAll, <- list_fmap_compose.
    apply list_fmap_ext. intros ? b _. apply frame_integrate. }
  split; [done|].
  by rewrite <- (length_fmap frame), Hfr, length_fmap.
Qed.

End Frame.

(** Reduce record projections, the record updates and the operations of the
    number instance, and nothing inside the numbers. *)
Ltac js_cbn :=
  cbn [x y id position velocity acceleration mass radius color width height
       gravityMagnitude frictionEnabled elasticity
       lit_0 lit_1 lit_2 lit_0_1 lit_0_9 nadd nsub nmul ndiv nneg nabs nsqrt
       nlt nle ntruthy R_JSNumber float_JSNumber
       fst snd setVelocity setPosition GRAVITY sq frictionCoefficient
       bodyR canvasR paramsR leftBody rightBody bodyF canvasF
       fmap list_fmap option_fmap option_map foldl seq length
       lookup list_lookup insert list_insert Nat.sub negb orb andb] in *.

(** ** Exact real arithmetic *)

Section RealFacts.
Local Open Scope R_scope.
Implicit Types (body bodyA bodyB : Body R) (c : Canvas R) (p : Params R).

Lemma Rltb_true (a b : R) : a < b -> Rltb a b = true.
Proof. intros. unfold Rltb. by apply bool_decide_eq_true. Qed.

Lemma Rltb_false (a b : R) : b <= a -> Rltb a b = false.
Proof. intros. unfold Rltb. apply bool_decide_eq_false. lra. Qed.

Lemma Rleb_true (a b : R) : a <= b -> Rleb a b = true.
Proof. intros. unfold Rleb. by apply bool_decide_eq_true. Qed.





(** *** Integrator *)

Lemma gravityAcceleration_R p body :
  mass body <> 0 -> gravityAcceleration p body = GRAVITY p.
Proof.
  intros Hm. unfold gravityAcceleration, GRAVITY. cbn. f_equal; by field.
Qed.

(** C6 (amended): with friction off, at every number type (binary64
    included) the integrator sets velocity' = velocity + acceleration * dt
    with the acceleration (mass * gravity) / mass it has just computed, and
    then position' = position + velocity' * dt with that new velocity; in
    exact arithmetic and for a positive mass the acceleration is the gravity
    vector whatever the mass, so that velocity' = velocity + gravity * dt. *)
Theorem integrate_no_friction :
  (forall (num : Type) (N : JSNumber num) (canvas : option (Canvas num))
          (q : Params num) (dt : num) (b : Body num),
     frictionEnabled q = false ->
     velocity (integrate canvas q dt b)
     = {| x := nadd (x (velocity b)) (nmul (x (gravityAcceleration q b)) dt);
          y := nadd (y (velocity b)) (nmul (y (gravityAcceleration q b)) dt) |}
     /\ position (integrate canvas q dt b)
        = {| x := nadd (x (position b))
                       (nmul (x (velocity (integrate canvas q dt b))) dt);
             y := nadd (y (position b))
                       (nmul (y (velocity (integrate canvas q dt b))) dt) |})
  /\ (forall (canvas : option (Canvas R)) (q : Params R) (dt : R) (b : Body R),
        frictionEnabled q = false ->
        0 < mass b ->
        gravityAcceleration q b = GRAVITY q
        /\ velocity (integrate canvas q dt b)
           = {| x := x (velocity b) + x (GRAVITY q) * dt;
                y := y (velocity b) + y (GRAVITY q) * dt |}
        /\ position (integrate canvas q dt b)
           = {| x := x (position b)
                     + x (velocity (integrate canvas q dt b)) * dt;
                y := y (position b)
                     + y (velocity (integrate canvas q dt b)) * dt |}).
Proof.
  split.
  - intros num N canvas q dt b Hfr.
    unfold integrate, applyFriction, gravityVelocity. by rewrite Hfr.
  - intros canvas q dt b Hfr Hm.
    assert (Ha : gravityAcceleration q b = GRAVITY q)
      by (apply gravityAcceleration_R; lra).
    split; [done|].
    unfold integrate, applyFriction, gravityVelocity. rewrite Hfr, Ha. done.
Qed.

Lemma integrate_no_friction_witness :
  (velocity (integrate (Some canvasF) (paramsF 9.8 false 0.7) 0.5%float
               (bodyF 400 50 3 0 53 20))
   = {| x := PrimFloat.add 3
               (PrimFloat.mul
                  (x (gravityAcceleration (paramsF 9.8 false 0.7)
                        (bodyF 400 50 3 0 53 20))) 0.5);
        y := PrimFloat.add 0
               (PrimFloat.mul
                  (y (gravityAcceleration (paramsF 9.8 false 0.7)
                        (bodyF 400 50 3 0 53 20))) 0.5) |}
   /\ position (integrate (Some canvasF) (paramsF 9.8 false 0.7) 0.5%float
                  (bodyF 400 50 3 0 53 20))
      = {| x := PrimFloat.add 400
                  (PrimFloat.mul
                     (x (velocity (integrate (Some canvasF)
                                     (paramsF 9.8 false 0.7) 0.5%float
                                     (bodyF 400 50 3 0 53 20)))) 0.5);
           y := PrimFloat.add 50
                  (PrimFloat.mul
                     (y (velocity (integrate (Some canvasF)
                                     (paramsF 9.8 false 0.7) 0.5%float
                                     (bodyF 400 50 3 0 53 20)))) 0.5) |})
  /\ (gravityAcceleration (paramsR 9.8 false 0.7) (bodyR 400 50 3 0 10 20)
      = GRAVITY (paramsR 9.8 false 0.7)
      /\ velocity (integrate (Some canvasR) (paramsR 9.8 false 0.7) (1 / 60)
                     (bodyR 400 50 3 0 10 20))
         = {| x := 3 + 0 * (1 / 60); y := 0 + 9.8 * (1 / 60) |}
      /\ position (integrate (Some canvasR) (paramsR 9.8 false 0.7) (1 / 60)
                     (bodyR 400 50 3 0 10 20))
         = {| x := 400
                   + x (velocity (integrate (Some canvasR)
                                    (paramsR 9.8 false 0.7) (1 / 60)
                                    (bodyR 400 50 3 0 10 20))) * (1 / 60);
              y := 50
                   + y (velocity (integrate (Some canvasR)
                                    (paramsR 9.8 false 0.7) (1 / 60)
                                    (bodyR 400 50 3 0 10 20)))
                     * (1 / 60) |}).
Proof.
  destruct integrate_no_friction as [Hany Hexact]. split.
  - apply (Hany float float_JSNumber (Some canvasF) (paramsF 9.8 false 0.7)
             0.5%float (bodyF 400 50 3 0 53 20)).
    reflexivity.
  - apply (Hexact (Some canvasR) (paramsR 9.8 false 0.7) (1 / 60)
             (bodyR 400 50 3 0 10 20)).
    + reflexivity.
    + js_cbn. lra.
Defined.

(** C6 as stated fails on binary64: for a body of mass 53 and gravity 9.8 the
    acceleration (53 * 9.8) / 53 is 9.8000000000000025, not the gravity
    9.8000000000000007 that a body of mass 10 gets, and after dt = 0.5 the
    velocity is 4.9000000000000012, not 0 + 9.8 * 0.5. *)
Lemma integrate_no_friction_counterexample :
  PrimFloat.ltb 0 (mass (bodyF 400 50 0 0 53 20)) = true
  /\ gravityAcceleration (paramsF 9.8 false 0.7) (bodyF 400 50 0 0 53 20)
     = {| x := 0%float; y := 9.8000000000000025%float |}
  /\ gravityAcceleration (paramsF 9.8 false 0.7) (bodyF 400 50 0 0 10 20)
     = {| x := 0%float; y := 9.8000000000000007%float |}
  /\ GRAVITY (paramsF 9.8 false 0.7)
     = {| x := 0%float; y := 9.8000000000000007%float |}
  /\ PrimFloat.eqb
       (y (gravityAcceleration (paramsF 9.8 false 0.7)
             (bodyF 400 50 0 0 53 20)))
       (y (GRAVITY (paramsF 9.8 false 0.7))) = false
  /\ y (velocity (integrate (Some canvasF) (paramsF 9.8 false 0.7) 0.5%float
                    (bodyF 400 50 0 0 53 20)))
     = 4.9000000000000012%float
  /\ PrimFloat.add 0 (PrimFloat.mul 9.8 0.5) = 4.9000000000000004%float
  /\ PrimFloat.eqb 4.9000000000000012 4.9000000000000004 = false.
Proof. repeat split; vm_compute; reflexivity. Qed.

(** The position update is not the explicit Euler one: it reads the new
    velocity. *)
Example integrate_not_explicit_euler :
  y (position (integrate (Some canvasR) (paramsR 10 false 1) 1
                 (bodyR 400 50 0 0 10 20)))
  = 60
  /\ 50 + y (velocity (bodyR 400 50 0 0 10 20)) * 1 = 50.
Proof. cbn. split; field. Qed.

(** *** Friction *)




(** *** Boundary handling *)

Lemma floorWall_skip e c body :
  y (position body) + radius body <= height c -> floorWall e c body = body.
Proof. intros. unfold floorWall. js_cbn. by rewrite Rltb_false. Qed.

Lemma floorWall_hit e c body :
  height c < y (position body) + radius body ->
  floorWall e c body
  = setVelocity
      (setPosition body {| x := x (position body);
                           y := height c - radius body |})
      {| x := x (velocity body); y := bounce e (y (velocity body)) |}.
Proof. intros. unfold floorWall. js_cbn. by rewrite Rltb_true. Qed.

Lemma ceilingWall_skip e body :
  0 <= y (position body) - radius body -> ceilingWall e body = body.
Proof. intros. unfold ceilingWall. js_cbn. by rewrite Rltb_false. Qed.

Lemma ceilingWall_hit e body :
  y (position body) - radius body < 0 ->
  ceilingWall e body
  = setVelocity
      (setPosition body {| x := x (position body); y := radius body |})
      {| x := x (velocity body); y := bounce e (y (velocity body)) |}.
Proof. intros. unfold ceilingWall. js_cbn. by rewrite Rltb_true. Qed.

Lemma rightWall_skip e c body :
  x (position body) + radius body <= width c -> rightWall e c body = body.
Proof. intros. unfold rightWall. js_cbn. by rewrite Rltb_false. Qed.

Lemma rightWall_hit e c body :
  width c < x (position body) + radius body ->
  rightWall e c body
  = setVelocity
      (setPosition body {| x := width c - radius body;
                           y := y (position body) |})
      {| x := bounce e (x (velocity body)); y := y (velocity body) |}.
Proof. intros. unfold rightWall. js_cbn. by rewrite Rltb_true. Qed.

Lemma leftWall_skip e body :
  0 <= x (position body) - radius body -> leftWall e body = body.
Proof. intros. unfold leftWall. js_cbn. by rewrite Rltb_false. Qed.

Lemma leftWall_hit e body :
  x (position body) - radius body < 0 ->
  leftWall e body
  = setVelocity
      (setPosition body {| x := radius body; y := y (position body) |})
      {| x := bounce e (x (velocity body)); y := y (velocity body) |}.
Proof. intros. unfold leftWall. js_cbn. by rewrite Rltb_true. Qed.

(** Split on whether a wall test fires, rewriting the wall away. *)
Ltac wall_case skip hit a b :=
  let Hw := fresh "Hw" in
  destruct (Rle_lt_dec a b) as [Hw|Hw];
  [rewrite skip by exact Hw | rewrite hit by exact Hw];
  js_cbn.

(** After the boundary handler ran against a mounted canvas, a body no wider
    and no taller than the world lies in
    [radius, width - radius] x [radius, height - radius]. *)
Lemma boundary_inBounds c e body :
  fitsIn c body -> inBounds c (boundary (Some c) e body).
Proof.
  unfold fitsIn, inBounds, boundary. intros [HW HH].
  wall_case floorWall_skip floorWall_hit
    (y (position body) + radius body) (height c).
  all: match goal with |- context [ceilingWall _ ?b] =>
         wall_case ceilingWall_skip ceilingWall_hit
           0 (y (position b) - radius b) end.
  all: match goal with |- context [rightWall _ ?c0 ?b] =>
         wall_case rightWall_skip rightWall_hit
           (x (position b) + radius b) (width c0) end.
  all: match goal with |- context [leftWall _ ?b] =>
         wall_case leftWall_skip leftWall_hit
           0 (x (position b) - radius b) end.
  all: lra.
Qed.





(** *** Collision response for one pair *)

Lemma sum_sq_nonneg (u v : R) : 0 <= u * u + v * v.
Proof. nra. Qed.

Lemma sum_sq_zero (u v : R) : u * u + v * v = 0 -> u = 0 /\ v = 0.
Proof. intros. split; nra. Qed.

(** The sign of the energy change [(e^2 - 1) * q] of a collision. *)
Lemma restitution_loss (e q : R) :
  0 <= e <= 1 -> 0 < q ->
  (e * e - 1) * q <= 0 /\ ((e * e - 1) * q = 0 <-> e = 1).
Proof.
  intros He Hq.
  assert (He2 : e * e - 1 <= 0) by nra.
  split.
  - set (t := e * e - 1) in *. nra.
  - split; intros Heq; [|subst e; lra].
    apply Rmult_integral in Heq as [Heq|Heq]; [nra|lra].
Qed.

Lemma distance_nonneg bodyA bodyB : 0 <= distance bodyA bodyB.
Proof. apply sqrt_pos. Qed.

Lemma distance_sq bodyA bodyB :
  distance bodyA bodyB * distance bodyA bodyB
  = (x (position bodyA) - x (position bodyB))
    * (x (position bodyA) - x (position bodyB))
    + (y (position bodyA) - y (position bodyB))
      * (y (position bodyA) - y (position bodyB)).
Proof. unfold distance. js_cbn. apply sqrt_sqrt, sum_sq_nonneg. Qed.

Lemma distance_pos bodyA bodyB :
  position bodyA <> position bodyB -> 0 < distance bodyA bodyB.
Proof.
  intros Hne.
  destruct (Rle_lt_or_eq_dec _ _ (distance_nonneg bodyA bodyB)) as [|Hz];
    [done|].
  destruct Hne. pose proof (distance_sq bodyA bodyB) as Hsq.
  rewrite <- Hz, Rmult_0_l in Hsq. symmetry in Hsq.
  apply sum_sq_zero in Hsq as [Hx Hy].
  destruct (position bodyA) as [ax ay], (position bodyB) as [bx by_].
  js_cbn. f_equal; lra.
Qed.

(** The normal is a unit vector once the centres are apart. *)
Lemma normal_unit bodyA bodyB :
  0 < distance bodyA bodyB ->
  x (normal bodyA bodyB) * x (normal bodyA bodyB)
  + y (normal bodyA bodyB) * y (normal bodyA bodyB) = 1.
Proof.
  intros Hd. pose proof (distance_sq bodyA bodyB) as Hsq.
  unfold normal. js_cbn.
  set (d := distance bodyA bodyB) in *.
  transitivity (d * d / (d * d)); [|field; lra].
  rewrite Hsq at 1. field. lra.
Qed.

(** With coincident centres both components of the normal are [0 / 0]: the
    relative velocity along it is not negative, whatever division by zero
    returns. *)
Lemma dotProduct_neg_distance_pos bodyA bodyB :
  dotProduct bodyA bodyB < 0 -> 0 < distance bodyA bodyB.
Proof.
  intros Hdot.
  destruct (Rle_lt_or_eq_dec _ _ (distance_nonneg bodyA bodyB)) as [|Hz];
    [done|].
  exfalso. pose proof (distance_sq bodyA bodyB) as Hsq.
  rewrite <- Hz, Rmult_0_l in Hsq. symmetry in Hsq.
  apply sum_sq_zero in Hsq as [Hx0 Hy0].
  revert Hdot. unfold dotProduct, normal. js_cbn.
  assert (Hx : x (position bodyB) - x (position bodyA) = 0) by lra.
  assert (Hy : y (position bodyB) - y (position bodyA) = 0) by lra.
  rewrite Hx, Hy. unfold Rdiv. rewrite !Rmult_0_l. lra.
Qed.

Lemma resolvePair_hit e bodyA bodyB :
  colliding bodyA bodyB = true -> dotProduct bodyA bodyB < 0 ->
  resolvePair e bodyA bodyB
  = separate bodyA bodyB (applyImpulse e bodyA bodyB).
Proof.
  intros Hc Hd. unfold resolvePair. rewrite Hc. js_cbn.
  by rewrite Rltb_true.
Qed.

(** The pair [leftBody], [rightBody]. *)
Lemma distance_demo u w m1 m2 :
  distance (leftBody u m1) (rightBody w m2) = 30.
Proof.
  unfold distance. js_cbn. apply sqrt_lem_1; lra.
Qed.

Lemma colliding_demo u w m1 m2 :
  colliding (leftBody u m1) (rightBody w m2) = true.
Proof.
  unfold colliding. rewrite distance_demo. js_cbn. apply Rltb_true. lra.
Qed.

Lemma normal_demo u w m1 m2 :
  normal (leftBody u m1) (rightBody w m2) = {| x := 1; y := 0 |}.
Proof.
  unfold normal. rewrite distance_demo. js_cbn. f_equal; lra.
Qed.

Lemma dotProduct_demo u w m1 m2 :
  dotProduct (leftBody u m1) (rightBody w m2) = w - u.
Proof.
  unfold dotProduct. rewrite normal_demo. js_cbn. lra.
Qed.



(** C3 (amended): in exact arithmetic, the impulse keeps the total momentum
    massA * velA + massB * velB of a pair of bodies with positive masses,
    and so does the whole resolution of the pair. *)
Theorem resolvePair_momentum e bodyA bodyB :
  0 < mass bodyA -> 0 < mass bodyB ->
  momentum (fst (applyImpulse e bodyA bodyB)) (snd (applyImpulse e bodyA bodyB))
  = momentum bodyA bodyB
  /\ momentum (fst (resolvePair e bodyA bodyB))
              (snd (resolvePair e bodyA bodyB))
     = momentum bodyA bodyB.
Proof.
  intros HmA HmB.
  assert (Himp : momentum (fst (applyImpulse e bodyA bodyB))
                          (snd (applyImpulse e bodyA bodyB))
                 = momentum bodyA bodyB).
  { unfold momentum, applyImpulse. js_cbn. f_equal; field; lra. }
  split; [exact Himp|]. unfold resolvePair.
  destruct (colliding bodyA bodyB); [|done].
  js_cbn. destruct (Rltb _ _); [|done].
  rewrite <- Himp. reflexivity.
Qed.

Lemma resolvePair_momentum_witness :
  momentum (fst (applyImpulse 1 (leftBody 5 10) (rightBody (-5) 10)))
           (snd (applyImpulse 1 (leftBody 5 10) (rightBody (-5) 10)))
  = momentum (leftBody 5 10) (rightBody (-5) 10)
  /\ momentum (fst (resolvePair 1 (leftBody 5 10) (rightBody (-5) 10)))
              (snd (resolvePair 1 (leftBody 5 10) (rightBody (-5) 10)))
     = momentum (leftBody 5 10) (rightBody (-5) 10).
Proof.
  apply (resolvePair_momentum 1 (leftBody 5 10) (rightBody (-5) 10));
    js_cbn; lra.
Defined.

(** C4 (amended): in exact arithmetic, two bodies of equal mass that approach
    each other head-on at speed v (velocities v * n and -v * n along the
    normal n), overlapping with their centres apart, have exchanged their
    velocities after the collision is resolved with elasticity 1. *)
Theorem resolvePair_head_on_swap bodyA bodyB v :
  mass bodyA = mass bodyB -> 0 < mass bodyA -> 0 < v ->
  position bodyA <> position bodyB ->
  colliding bodyA bodyB = true ->
  velocity bodyA = scale v (normal bodyA bodyB) ->
  velocity bodyB = scale (- v) (normal bodyA bodyB) ->
  velocity (fst (resolvePair 1 bodyA bodyB)) = velocity bodyB
  /\ velocity (snd (resolvePair 1 bodyA bodyB)) = velocity bodyA.
Proof.
  intros Hm HmA Hv Hne Hc HvA HvB.
  pose proof (normal_unit _ _ (distance_pos _ _ Hne)) as Hn.
  assert (Hdot : dotProduct bodyA bodyB = - 2 * v).
  { unfold dotProduct. rewrite HvA, HvB. unfold scale. js_cbn.
    set (nx := x (normal bodyA bodyB)) in *.
    set (ny := y (normal bodyA bodyB)) in *.
    transitivity (- 2 * v * (nx * nx + ny * ny)); [ring|].
    rewrite Hn. ring. }
  assert (Himp : impulse 1 bodyA bodyB = 2 * v * mass bodyA).
  { unfold impulse. rewrite Hdot, <- Hm. js_cbn. field. lra. }
  rewrite resolvePair_hit by (done || lra).
  unfold separate, applyImpulse. js_cbn.
  rewrite Himp, <- Hm, HvA, HvB. unfold scale. js_cbn.
  split; f_equal; field; lra.
Qed.

Lemma resolvePair_head_on_swap_witness :
  velocity (fst (resolvePair 1 (leftBody 5 10) (rightBody (-5) 10)))
  = velocity (rightBody (-5) 10)
  /\ velocity (snd (resolvePair 1 (leftBody 5 10) (rightBody (-5) 10)))
     = velocity (leftBody 5 10).
Proof.
  apply (resolvePair_head_on_swap (leftBody 5 10) (rightBody (-5) 10) 5).
  - reflexivity.
  - js_cbn. lra.
  - lra.
  - js_cbn. intros Heq. apply (f_equal x) in Heq. js_cbn. lra.
  - apply colliding_demo.
  - rewrite normal_demo. unfold scale. js_cbn. f_equal; lra.
  - rewrite normal_demo. unfold scale. js_cbn. f_equal; lra.
Defined.

(** The change of kinetic energy under an impulse [k] along [(nx, ny)]. *)
Lemma impulse_energy_delta mA mB vAx vAy vBx vBy nx ny k :
  mA <> 0 -> mB <> 0 ->
  mA * ((vAx - k * nx / mA) * (vAx - k * nx / mA)
        + (vAy - k * ny / mA) * (vAy - k * ny / mA)) / 2
  + mB * ((vBx + k * nx / mB) * (vBx + k * nx / mB)
          + (vBy + k * ny / mB) * (vBy + k * ny / mB)) / 2
  = mA * (vAx * vAx + vAy * vAy) / 2 + mB * (vBx * vBx + vBy * vBy) / 2
    + k * ((vBx - vAx) * nx + (vBy - vAy) * ny)
    + k * k * (1 / mA + 1 / mB) * (nx * nx + ny * ny) / 2.
Proof. intros. field. done. Qed.

(** The energy a resolved collision takes away. *)
Lemma resolvePair_energy_delta e bodyA bodyB :
  0 < mass bodyA -> 0 < mass bodyB ->
  colliding bodyA bodyB = true -> dotProduct bodyA bodyB < 0 ->
  kineticEnergy (fst (resolvePair e bodyA bodyB))
  + kineticEnergy (snd (resolvePair e bodyA bodyB))
  = kineticEnergy bodyA + kineticEnergy bodyB
    + (e * e - 1)
      * (dotProduct bodyA bodyB * dotProduct bodyA bodyB
         / (2 * (1 / mass bodyA + 1 / mass bodyB))).
Proof.
  intros HmA HmB Hc Hd. rewrite resolvePair_hit by done.
  pose proof (normal_unit bodyA bodyB
                (dotProduct_neg_distance_pos _ _ Hd)) as Hn.
  unfold kineticEnergy, separate, applyImpulse. js_cbn.
  rewrite impulse_energy_delta by lra. rewrite Hn.
  change ((x (velocity bodyB) - x (velocity bodyA)) * x (normal bodyA bodyB)
          + (y (velocity bodyB) - y (velocity bodyA)) * y (normal bodyA bodyB))
    with (dotProduct bodyA bodyB).
  unfold impulse. js_cbn.
  assert (HM : 0 < 1 / mass bodyA + 1 / mass bodyB).
  { apply Rplus_lt_0_compat; apply Rdiv_lt_0_compat; lra. }
  generalize dependent (1 / mass bodyA + 1 / mass bodyB).
  generalize (dotProduct bodyA bodyB).
  intros d M HM. field. lra.
Qed.

(** C5 (amended): in exact arithmetic, for elasticity in [0, 1], a colliding
    and approaching pair with positive masses does not gain kinetic energy,
    and keeps all of it exactly when elasticity = 1. *)
Theorem resolvePair_energy e bodyA bodyB :
  0 <= e <= 1 ->
  0 < mass bodyA -> 0 < mass bodyB ->
  colliding bodyA bodyB = true -> dotProduct bodyA bodyB < 0 ->
  kineticEnergy (fst (resolvePair e bodyA bodyB))
  + kineticEnergy (snd (resolvePair e bodyA bodyB))
  <= kineticEnergy bodyA + kineticEnergy bodyB
  /\ (kineticEnergy (fst (resolvePair e bodyA bodyB))
      + kineticEnergy (snd (resolvePair e bodyA bodyB))
      = kineticEnergy bodyA + kineticEnergy bodyB
      <-> e = 1).
Proof.
  intros He HmA HmB Hc Hd.
  rewrite resolvePair_energy_delta by done.
  assert (0 < 1 / mass bodyA) by (apply Rdiv_lt_0_compat; lra).
  assert (0 < 1 / mass bodyB) by (apply Rdiv_lt_0_compat; lra).
  assert (Hq : 0 < dotProduct bodyA bodyB * dotProduct bodyA bodyB
                   / (2 * (1 / mass bodyA + 1 / mass bodyB))).
  { apply Rdiv_lt_0_compat; nra. }
  destruct (restitution_loss e _ He Hq) as [Hle Hiff].
  split; [lra|]. rewrite <- Hiff. split; lra.
Qed.

Lemma resolvePair_energy_witness :
  kineticEnergy (fst (resolvePair 0.7 (leftBody 5 10) (rightBody (-5) 4)))
  + kineticEnergy (snd (resolvePair 0.7 (leftBody 5 10) (rightBody (-5) 4)))
  <= kineticEnergy (leftBody 5 10) + kineticEnergy (rightBody (-5) 4)
  /\ (kineticEnergy (fst (resolvePair 0.7 (leftBody 5 10) (rightBody (-5) 4)))
      + kineticEnergy (snd (resolvePair 0.7 (leftBody 5 10)
                             (rightBody (-5) 4)))
      = kineticEnergy (leftBody 5 10) + kineticEnergy (rightBody (-5) 4)
      <-> 0.7 = 1).
Proof.
  apply (resolvePair_energy 0.7 (leftBody 5 10) (rightBody (-5) 4)).
  - lra.
  - js_cbn. lra.
  - js_cbn. lra.
  - apply colliding_demo.
  - rewrite dotProduct_demo. lra.
Defined.

End RealFacts.

(** ** IEEE-754 binary64: coincident centres *)

Section FloatFacts.
Implicit Types (a : float) (bodyA bodyB : Body float).

Lemma Prim2SF_zero : Prim2SF 0%float = S754_zero false.
Proof. reflexivity. Qed.

Lemma Prim2SF_nan : Prim2SF nan = S754_nan.
Proof. reflexivity. Qed.

(** [a - a] is [+0] for a finite [a] and NaN for an infinity or NaN. *)
Lemma float_sub_diag a :
  PrimFloat.sub a a = 0%float \/ PrimFloat.sub a a = nan.
Proof.
  pose proof (sub_spec a a) as Hs. unfold SF64sub, SFsub in Hs.
  destruct (Prim2SF a) as [s|s| |s m ex].
  - left. apply Prim2SF_inj. rewrite Hs. by destruct s.
  - right. apply Prim2SF_inj. rewrite Hs. by destruct s.
  - right. by apply Prim2SF_inj.
  - left. apply Prim2SF_inj. rewrite Hs. cbv zeta.
    by rewrite Z.sub_diag.
Qed.

Lemma float_mul_nan_r a : PrimFloat.mul a nan = nan.
Proof.
  apply Prim2SF_inj. rewrite mul_spec, Prim2SF_nan.
  unfold SF64mul, SFmul. by destruct (Prim2SF a).
Qed.

Lemma float_ltb_nan_l a : PrimFloat.ltb nan a = false.
Proof. by rewrite ltb_spec, Prim2SF_nan. Qed.

(** With equal positions the distance is 0 and the normal is (NaN, NaN), or
    (for positions that are not finite) the distance itself is NaN. *)
Lemma coincident_cases bodyA bodyB :
  position bodyA = position bodyB ->
  distance bodyA bodyB = nan
  \/ (distance bodyA bodyB = 0%float
      /\ normal bodyA bodyB = {| x := nan; y := nan |}).
Proof.
  intros Hpos. unfold normal, distance. rewrite Hpos. js_cbn.
  destruct (float_sub_diag (x (position bodyB))) as [->| ->],
           (float_sub_diag (y (position bodyB))) as [->| ->];
    [right; split; reflexivity | left; reflexivity ..].
Qed.

(** C2: two bodies with the same position leave the resolution step as they
    entered it: the comparison of the NaN relative velocity with 0 is false,
    so no NaN is written, and positions and velocities that held none hold
    none afterwards. *)
Theorem resolvePair_coincident e bodyA bodyB :
  position bodyA = position bodyB ->
  definedState bodyA -> definedState bodyB ->
  resolvePair e bodyA bodyB = (bodyA, bodyB)
  /\ definedState (fst (resolvePair e bodyA bodyB))
  /\ definedState (snd (resolvePair e bodyA bodyB)).
Proof.
  intros Hpos HA HB.
  assert (Hres : resolvePair e bodyA bodyB = (bodyA, bodyB)).
  { unfold resolvePair, colliding.
    destruct (coincident_cases bodyA bodyB Hpos) as [Hd|[Hd Hn]].
    - rewrite Hd. js_cbn. by rewrite float_ltb_nan_l.
    - destruct (nlt _ _); [|done].
      unfold dotProduct. rewrite Hn. js_cbn.
      by rewrite !float_mul_nan_r. }
  by rewrite Hres.
Qed.

Lemma resolvePair_coincident_witness :
  resolvePair 0.7%float (bodyF 400 50 0 0 10 20) (bodyF 400 50 3 (-2) 5 20)
  = (bodyF 400 50 0 0 10 20, bodyF 400 50 3 (-2) 5 20)
  /\ definedState
       (fst (resolvePair 0.7%float (bodyF 400 50 0 0 10 20)
               (bodyF 400 50 3 (-2) 5 20)))
  /\ definedState
       (snd (resolvePair 0.7%float (bodyF 400 50 0 0 10 20)
               (bodyF 400 50 3 (-2) 5 20))).
Proof.
  apply (resolvePair_coincident 0.7%float (bodyF 400 50 0 0 10 20)
           (bodyF 400 50 3 (-2) 5 20)).
  - reflexivity.
  - repeat split; reflexivity.
  - repeat split; reflexivity.
Defined.

(** A tick on two bodies created at the same place with the same radius,
    run on binary64: both fall together, untouched by the collision step. *)
Example updatePhysics_coincident_run :
  updatePhysics (Some canvasF) (paramsF 10 true 0.5) 0.5%float [bodyF 400 50 0 0 10 20; bodyF 400 50 0 0 10 20]
  = [bodyF 400 52.5 0 5 10 20; bodyF 400 52.5 0 5 10 20].
Proof. vm_compute. reflexivity. Qed.

(** Rounding is what the real-number reading leaves out: on binary64 the
    velocity exchange of two bodies of mass 3 at speed 0.1 is off in the last
    place. *)
Example resolvePair_swap_binary64 :
  velocity (fst (resolvePair 1%float (bodyF 100 300 0.1 0 3 20)
                   (bodyF 130 300 (-0.1) 0 3 20)))
  = {| x := (-0x1.999999999999cp-4)%float; y := 0%float |}
  /\ velocity (bodyF 130 300 (-0.1) 0 3 20)
     = {| x := (-0x1.999999999999ap-4)%float; y := 0%float |}.
Proof. split; vm_compute; reflexivity. Qed.

End FloatFacts.

(** ** The body store *)

Section StoreFacts.
Context {num : Type} `{JSNumber num}.
Variable toString36 : num -> string.
Implicit Types (newBody : Body num) (bodies : list (Body num)) (rnd : num).

Lemma clearBodies_length bodies : length (clearBodies bodies) = 0.
Proof. reflexivity. Qed.

Lemma addBody_length rnd newBody bodies :
  length (addBody toString36 rnd newBody bodies) = S (length bodies).
Proof. unfold addBody. rewrite length_app. cbn. lia. Qed.

(** The new body goes last, with every field but the id as given. *)
Lemma addBody_last rnd newBody bodies :
  addBody toString36 rnd newBody bodies !! length bodies
  = Some (withId newBody (freshId toString36 rnd)).
Proof. unfold addBody. by rewrite lookup_app_r, Nat.sub_diag by lia. Qed.

(** [Number.prototype.toString] prints 0 as "0" in every radix, and
    [Math.random()] may return 0: the id is then empty. *)
Lemma addBody_empty_id rnd newBody :
  toString36 rnd = "0"%string ->
  id (withId newBody (freshId toString36 rnd)) = EmptyString.
Proof. intros Hz. cbn. unfold freshId. by rewrite Hz. Qed.

(** C9: the id is a function of the random draw alone, and the store is not
    consulted: when [Math.random()] returns the same number for two calls of
    [addBody], the id of the second body is already the id of a body of the
    store, and the ids of the store are no longer pairwise distinct. *)
Theorem addBody_same_draw_duplicate_id rnd newBody1 newBody2 bodies :
  id (withId newBody2 (freshId toString36 rnd))
    ∈ id <$> addBody toString36 rnd newBody1 bodies
  /\ ~ NoDup (id <$> addBody toString36 rnd newBody2
                       (addBody toString36 rnd newBody1 bodies)).
Proof.
  assert (Hin : id (withId newBody2 (freshId toString36 rnd))
                  ∈ id <$> addBody toString36 rnd newBody1 bodies).
  { unfold addBody. rewrite fmap_app. apply elem_of_app. right.
    cbn. apply list_elem_of_singleton. reflexivity. }
  split; [exact Hin|].
  unfold addBody at 1. rewrite fmap_app. intros Hnd.
  apply NoDup_app in Hnd as (_ & Hdisj & _).
  apply (Hdisj _ Hin). cbn. apply list_elem_of_singleton. reflexivity.
Qed.

End StoreFacts.

(** ** More on the resolution of a pair, in exact arithmetic *)

Section PairFacts.
Local Open Scope R_scope.
Implicit Types (bodyA bodyB : Body R).

(** The vector between the centres is the distance times the normal. *)
Lemma normal_times_distance bodyA bodyB :
  0 < distance bodyA bodyB ->
  x (position bodyB) - x (position bodyA)
  = distance bodyA bodyB * x (normal bodyA bodyB)
  /\ y (position bodyB) - y (position bodyA)
     = distance bodyA bodyB * y (normal bodyA bodyB).
Proof. intros Hd. unfold normal. js_cbn. split; field; lra. Qed.

Lemma colliding_lt bodyA bodyB :
  colliding bodyA bodyB = true ->
  distance bodyA bodyB < radius bodyA + radius bodyB.
Proof.
  unfold colliding. js_cbn. unfold Rltb. intros Hc.
  by apply bool_decide_eq_true in Hc.
Qed.

(** The vector between the centres after the positional correction. *)
Lemma separate_offset e bodyA bodyB :
  0 < distance bodyA bodyB ->
  let r := separate bodyA bodyB (applyImpulse e bodyA bodyB) in
  x (position (snd r)) - x (position (fst r))
  = (radius bodyA + radius bodyB) * x (normal bodyA bodyB)
  /\ y (position (snd r)) - y (position (fst r))
     = (radius bodyA + radius bodyB) * y (normal bodyA bodyB).
Proof.
  intros Hd r. subst r.
  destruct (normal_times_distance bodyA bodyB Hd) as [Hx Hy].
  unfold separate, applyImpulse. js_cbn. split; lra.
Qed.

(** The distance between the centres after the positional correction. *)
Lemma separate_distance e bodyA bodyB :
  0 < distance bodyA bodyB ->
  distance bodyA bodyB < radius bodyA + radius bodyB ->
  distance (fst (separate bodyA bodyB (applyImpulse e bodyA bodyB)))
           (snd (separate bodyA bodyB (applyImpulse e bodyA bodyB)))
  = radius bodyA + radius bodyB.
Proof.
  intros Hd Hlt.
  pose proof (normal_unit _ _ Hd) as Hn.
  destruct (separate_offset e bodyA bodyB Hd) as [Hx Hy].
  set (r := separate bodyA bodyB (applyImpulse e bodyA bodyB)) in *.
  unfold distance. js_cbn.
  replace (x (position (fst r)) - x (position (snd r)))
    with (- ((radius bodyA + radius bodyB) * x (normal bodyA bodyB)))
    by lra.
  replace (y (position (fst r)) - y (position (snd r)))
    with (- ((radius bodyA + radius bodyB) * y (normal bodyA bodyB)))
    by lra.
  apply sqrt_lem_1; [apply sum_sq_nonneg | lra |].
  set (nx := x (normal bodyA bodyB)) in *.
  set (ny := y (normal bodyA bodyB)) in *.
  set (s := radius bodyA + radius bodyB) in *.
  transitivity (s * s * (nx * nx + ny * ny)); [rewrite Hn; ring | ring].
Qed.

(** X1: once an approaching, overlapping pair is resolved, its centres are
    exactly radiusA + radiusB apart: the pair touches and no longer
    overlaps. *)
Theorem resolvePair_separates e bodyA bodyB :
  colliding bodyA bodyB = true -> dotProduct bodyA bodyB < 0 ->
  distance (fst (resolvePair e bodyA bodyB)) (snd (resolvePair e bodyA bodyB))
  = radius bodyA + radius bodyB
  /\ colliding (fst (resolvePair e bodyA bodyB))
               (snd (resolvePair e bodyA bodyB)) = false.
Proof.
  intros Hc Hdot.
  pose proof (dotProduct_neg_distance_pos _ _ Hdot) as Hd.
  pose proof (colliding_lt _ _ Hc) as Hlt.
  rewrite resolvePair_hit by done.
  pose proof (separate_distance e bodyA bodyB Hd Hlt) as Hdist.
  split; [exact Hdist|].
  unfold colliding. rewrite Hdist. js_cbn.
  apply Rltb_false.
  unfold separate, applyImpulse. js_cbn. lra.
Qed.

Lemma resolvePair_separates_witness :
  distance (fst (resolvePair 0.7 (leftBody 5 10) (rightBody (-5) 4)))
           (snd (resolvePair 0.7 (leftBody 5 10) (rightBody (-5) 4)))
  = radius (leftBody 5 10) + radius (rightBody (-5) 4)
  /\ colliding (fst (resolvePair 0.7 (leftBody 5 10) (rightBody (-5) 4)))
               (snd (resolvePair 0.7 (leftBody 5 10) (rightBody (-5) 4)))
     = false.
Proof.
  apply (resolvePair_separates 0.7 (leftBody 5 10) (rightBody (-5) 4)).
  - apply colliding_demo.
  - rewrite dotProduct_demo. lra.
Defined.

(** The normal of the resolved pair is the normal it was resolved along. *)
Lemma normal_resolved e bodyA bodyB :
  colliding bodyA bodyB = true -> dotProduct bodyA bodyB < 0 ->
  normal (fst (resolvePair e bodyA bodyB)) (snd (resolvePair e bodyA bodyB))
  = normal bodyA bodyB.
Proof.
  intros Hc Hdot.
  pose proof (dotProduct_neg_distance_pos _ _ Hdot) as Hd.
  pose proof (colliding_lt _ _ Hc) as Hlt.
  rewrite resolvePair_hit by done.
  unfold normal at 1. rewrite (separate_distance e bodyA bodyB Hd Hlt).
  js_cbn.
  destruct (separate_offset e bodyA bodyB Hd) as [-> ->].
  destruct (normal bodyA bodyB) as [nx ny]. js_cbn. f_equal; field; lra.
Qed.

(** X2: the restitution law.  After an approaching, overlapping pair with
    positive masses is resolved, its relative velocity along the normal is
    the one before, reversed and scaled by the elasticity. *)
Theorem resolvePair_restitution e bodyA bodyB :
  0 < mass bodyA -> 0 < mass bodyB ->
  colliding bodyA bodyB = true -> dotProduct bodyA bodyB < 0 ->
  dotProduct (fst (resolvePair e bodyA bodyB)) (snd (resolvePair e bodyA bodyB))
  = - e * dotProduct bodyA bodyB.
Proof.
  intros HmA HmB Hc Hdot.
  pose proof (normal_unit _ _ (dotProduct_neg_distance_pos _ _ Hdot)) as Hn.
  unfold dotProduct at 1. rewrite normal_resolved by done.
  rewrite resolvePair_hit by done.
  unfold separate, applyImpulse. js_cbn.
  set (nx := x (normal bodyA bodyB)) in *.
  set (ny := y (normal bodyA bodyB)) in *.
  transitivity
    ((x (velocity bodyB) - x (velocity bodyA)) * nx
     + (y (velocity bodyB) - y (velocity bodyA)) * ny
     + impulse e bodyA bodyB * (1 / mass bodyA + 1 / mass bodyB)
       * (nx * nx + ny * ny)); [field; lra|].
  rewrite Hn. unfold impulse. js_cbn.
  fold nx ny.
  change ((x (velocity bodyB) - x (velocity bodyA)) * nx
          + (y (velocity bodyB) - y (velocity bodyA)) * ny)
    with (dotProduct bodyA bodyB).
  assert (HM : 0 < 1 / mass bodyA + 1 / mass bodyB).
  { apply Rplus_lt_0_compat; apply Rdiv_lt_0_compat; lra. }
  generalize dependent (1 / mass bodyA + 1 / mass bodyB).
  intros M HM. field. lra.
Qed.

Lemma resolvePair_restitution_witness :
  dotProduct (fst (resolvePair 0.7 (leftBody 5 10) (rightBody (-5) 4)))
             (snd (resolvePair 0.7 (leftBody 5 10) (rightBody (-5) 4)))
  = - (0.7) * dotProduct (leftBody 5 10) (rightBody (-5) 4).
Proof.
  apply (resolvePair_restitution 0.7 (leftBody 5 10) (rightBody (-5) 4)).
  - js_cbn. lra.
  - js_cbn. lra.
  - apply colliding_demo.
  - rewrite dotProduct_demo. lra.
Defined.

(** X3: the positional correction is an even split: whatever the masses, the
    midpoint of the two centres stays where it was. *)
Theorem resolvePair_midpoint e bodyA bodyB :
  x (position (fst (resolvePair e bodyA bodyB)))
  + x (position (snd (resolvePair e bodyA bodyB)))
  = x (position bodyA) + x (position bodyB)
  /\ y (position (fst (resolvePair e bodyA bodyB)))
     + y (position (snd (resolvePair e bodyA bodyB)))
     = y (position bodyA) + y (position bodyB).
Proof.
  unfold resolvePair.
  destruct (colliding bodyA bodyB); [|done].
  js_cbn. destruct (Rltb _ _); [|done].
  unfold separate, applyImpulse. js_cbn. split; ring.
Qed.

(** X4: resolving a pair a second time changes nothing. *)
Theorem resolvePair_idempotent e bodyA bodyB :
  resolvePair e (fst (resolvePair e bodyA bodyB))
                (snd (resolvePair e bodyA bodyB))
  = resolvePair e bodyA bodyB.
Proof.
  destruct (colliding bodyA bodyB) eqn:Hc.
  - destruct (Rlt_le_dec (dotProduct bodyA bodyB) 0) as [Hdot|Hdot].
    + pose proof (dotProduct_neg_distance_pos _ _ Hdot) as Hd.
      pose proof (colliding_lt _ _ Hc) as Hlt.
      rewrite (resolvePair_hit e bodyA bodyB) by done.
      set (r := separate bodyA bodyB (applyImpulse e bodyA bodyB)).
      assert (Hnc : colliding (fst r) (snd r) = false).
      { unfold colliding. subst r.
        rewrite (separate_distance e bodyA bodyB Hd Hlt). js_cbn.
        apply Rltb_false. unfold separate, applyImpulse. js_cbn. lra. }
      unfold resolvePair. rewrite Hnc. by destruct r.
    + assert (Hid : resolvePair e bodyA bodyB = (bodyA, bodyB)).
      { unfold resolvePair. rewrite Hc. js_cbn. by rewrite Rltb_false. }
      rewrite Hid. js_cbn. exact Hid.
  - assert (Hid : resolvePair e bodyA bodyB = (bodyA, bodyB))
      by (unfold resolvePair; by rewrite Hc).
    rewrite Hid. js_cbn. exact Hid.
Qed.

(** Detection and the quantities of the response do not depend on which body
    of the pair comes first. *)
Lemma distance_sym bodyA bodyB : distance bodyB bodyA = distance bodyA bodyB.
Proof. unfold distance. js_cbn. f_equal. ring. Qed.

Lemma colliding_sym bodyA bodyB : colliding bodyB bodyA = colliding bodyA bodyB.
Proof.
  unfold colliding. rewrite distance_sym. js_cbn. by rewrite Rplus_comm.
Qed.

Lemma normal_sym bodyA bodyB :
  normal bodyB bodyA
  = {| x := - x (normal bodyA bodyB); y := - y (normal bodyA bodyB) |}.
Proof.
  unfold normal. rewrite distance_sym. js_cbn. unfold Rdiv. f_equal; ring.
Qed.

Lemma dotProduct_sym bodyA bodyB :
  dotProduct bodyB bodyA = dotProduct bodyA bodyB.
Proof. unfold dotProduct. rewrite normal_sym. js_cbn. ring. Qed.

Lemma impulse_sym e bodyA bodyB : impulse e bodyB bodyA = impulse e bodyA bodyB.
Proof.
  unfold impulse. rewrite dotProduct_sym. js_cbn.
  by rewrite (Rplus_comm (1 / mass bodyB)).
Qed.

(** X5: the outcome for a pair does not depend on the order in which the
    loops meet its two bodies. *)
Theorem resolvePair_sym e bodyA bodyB :
  resolvePair e bodyB bodyA
  = (snd (resolvePair e bodyA bodyB), fst (resolvePair e bodyA bodyB)).
Proof.
  unfold resolvePair. rewrite colliding_sym, dotProduct_sym.
  destruct (colliding bodyA bodyB); [|done].
  js_cbn. destruct (Rltb _ _); [|done].
  unfold separate, applyImpulse.
  rewrite normal_sym, impulse_sym, distance_sym. js_cbn.
  unfold setPosition, setVelocity. js_cbn. unfold Rdiv.
  f_equal; f_equal; f_equal; ring.
Qed.

End PairFacts.

(** ** More on the boundary handler and on friction, in exact arithmetic *)

Section BoundaryFacts.
Local Open Scope R_scope.
Implicit Types (body : Body R) (c : Canvas R) (p : Params R).

(** X6: the wall tests are strict: a body inside
    [radius, width - radius] x [radius, height - radius], edges included, is
    left exactly as it is. *)
Theorem boundary_noop c e body :
  inBounds c body -> boundary (Some c) e body = body.
Proof.
  unfold inBounds, boundary. intros [[Hx1 Hx2] [Hy1 Hy2]].
  rewrite floorWall_skip by lra.
  rewrite ceilingWall_skip by lra.
  rewrite rightWall_skip by lra.
  by rewrite leftWall_skip by lra.
Qed.

Lemma boundary_noop_witness :
  boundary (Some canvasR) 0.7 (bodyR 780 580 3 4 10 20)
  = bodyR 780 580 3 4 10 20.
Proof.
  apply (boundary_noop canvasR 0.7 (bodyR 780 580 3 4 10 20)).
  unfold inBounds. js_cbn. lra.
Defined.

(** X7: for a body no wider and no taller than the world, running the
    boundary handler twice is running it once. *)
Theorem boundary_idempotent c e body :
  fitsIn c body ->
  boundary (Some c) e (boundary (Some c) e body) = boundary (Some c) e body.
Proof.
  intros Hfit.
  destruct (boundary_inBounds c e body Hfit) as [[Hx1 Hx2] [Hy1 Hy2]].
  set (b' := boundary (Some c) e body) in *. unfold boundary.
  rewrite floorWall_skip by lra.
  rewrite ceilingWall_skip by lra.
  rewrite rightWall_skip by lra.
  by rewrite leftWall_skip by lra.
Qed.

Lemma boundary_idempotent_witness :
  boundary (Some canvasR) 0.7
    (boundary (Some canvasR) 0.7 (bodyR 790 (-5) 3 4 10 20))
  = boundary (Some canvasR) 0.7 (bodyR 790 (-5) 3 4 10 20).
Proof.
  apply (boundary_idempotent canvasR 0.7 (bodyR 790 (-5) 3 4 10 20)).
  unfold fitsIn. js_cbn. lra.
Defined.

(** The reflected velocity is 0 or at least 0.1 in size, is no larger than
    the incoming one for an elasticity in [0, 1], and points the other
    way for an elasticity that is not negative. *)
Lemma bounce_cases (e v : R) :
  bounce e v = 0 \/ (bounce e v = v * - e /\ 0.1 <= Rabs (v * - e)).
Proof.
  unfold bounce. js_cbn. unfold Rltb. case_bool_decide; [by left|].
  right. split; [done|lra].
Qed.

Lemma bounce_sq (e v : R) :
  0 <= e <= 1 -> bounce e v * bounce e v <= v * v.
Proof.
  intros He. destruct (bounce_cases e v) as [->|[-> _]]; [nra|].
  assert (e * e <= 1) by nra.
  replace (v * - e * (v * - e)) with (v * v * (e * e)) by ring.
  pose proof (sum_sq_nonneg v 0). nra.
Qed.

Lemma bounce_sign (e v : R) : 0 <= e -> 0 <= v -> bounce e v <= 0.
Proof.
  intros He Hv. destruct (bounce_cases e v) as [->|[-> _]]; [lra|nra].
Qed.

(** X8: a body caught below the floor is put on the floor,
    position.y = height - radius; for an elasticity that is not negative a
    body that was moving down no longer does, and its vertical velocity is
    exactly 0 or at least 0.1 in size. *)
Theorem floorWall_lands e c body :
  height c < y (position body) + radius body ->
  0 <= e -> 0 <= y (velocity body) ->
  y (position (floorWall e c body)) = height c - radius body
  /\ x (position (floorWall e c body)) = x (position body)
  /\ x (velocity (floorWall e c body)) = x (velocity body)
  /\ y (velocity (floorWall e c body)) <= 0
  /\ (y (velocity (floorWall e c body)) = 0
      \/ 0.1 <= Rabs (y (velocity (floorWall e c body)))).
Proof.
  intros Hhit He Hv. rewrite floorWall_hit by done. js_cbn.
  repeat split; [by apply bounce_sign|].
  destruct (bounce_cases e (y (velocity body))) as [->|[-> Hbig]];
    [by left|by right].
Qed.

Lemma floorWall_lands_witness :
  y (position (floorWall 0.7 canvasR (bodyR 400 590 0 30 10 20)))
  = height canvasR - radius (bodyR 400 590 0 30 10 20)
  /\ x (position (floorWall 0.7 canvasR (bodyR 400 590 0 30 10 20)))
     = x (position (bodyR 400 590 0 30 10 20))
  /\ x (velocity (floorWall 0.7 canvasR (bodyR 400 590 0 30 10 20)))
     = x (velocity (bodyR 400 590 0 30 10 20))
  /\ y (velocity (floorWall 0.7 canvasR (bodyR 400 590 0 30 10 20))) <= 0
  /\ (y (velocity (floorWall 0.7 canvasR (bodyR 400 590 0 30 10 20))) = 0
      \/ 0.1 <= Rabs (y (velocity (floorWall 0.7 canvasR
                                     (bodyR 400 590 0 30 10 20))))).
Proof.
  apply (floorWall_lands 0.7 canvasR (bodyR 400 590 0 30 10 20));
    js_cbn; lra.
Defined.


Lemma slower_refl body : slower body body.
Proof. unfold slower. repeat split; lra. Qed.

Lemma slower_trans b1 b2 b3 : slower b1 b2 -> slower b2 b3 -> slower b1 b3.
Proof.
  unfold slower. intros (Hm1 & Hx1 & Hy1) (Hm2 & Hx2 & Hy2).
  repeat split; [congruence|lra..].
Qed.

Lemma slower_floorWall e c body :
  0 <= e <= 1 -> slower (floorWall e c body) body.
Proof.
  intros He.
  destruct (Rle_lt_dec (y (position body) + radius body) (height c)).
  - rewrite floorWall_skip by done. apply slower_refl.
  - rewrite floorWall_hit by done. unfold slower. js_cbn.
    repeat split; [lra|by apply bounce_sq].
Qed.

Lemma slower_ceilingWall e body :
  0 <= e <= 1 -> slower (ceilingWall e body) body.
Proof.
  intros He.
  destruct (Rle_lt_dec 0 (y (position body) - radius body)).
  - rewrite ceilingWall_skip by done. apply slower_refl.
  - rewrite ceilingWall_hit by done. unfold slower. js_cbn.
    repeat split; [lra|by apply bounce_sq].
Qed.

Lemma slower_rightWall e c body :
  0 <= e <= 1 -> slower (rightWall e c body) body.
Proof.
  intros He.
  destruct (Rle_lt_dec (x (position body) + radius body) (width c)).
  - rewrite rightWall_skip by done. apply slower_refl.
  - rewrite rightWall_hit by done. unfold slower. js_cbn.
    repeat split; [by apply bounce_sq|lra].
Qed.

Lemma slower_leftWall e body :
  0 <= e <= 1 -> slower (leftWall e body) body.
Proof.
  intros He.
  destruct (Rle_lt_dec 0 (x (position body) - radius body)).
  - rewrite leftWall_skip by done. apply slower_refl.
  - rewrite leftWall_hit by done. unfold slower. js_cbn.
    repeat split; [by apply bounce_sq|lra].
Qed.

Lemma slower_kineticEnergy b' body :
  slower b' body -> 0 <= mass body ->
  kineticEnergy b' <= kineticEnergy body.
Proof.
  unfold slower, kineticEnergy. intros (-> & Hx & Hy) Hm.
  apply Rmult_le_compat_r; [lra|].
  apply Rmult_le_compat_l; lra.
Qed.

(** X9: for an elasticity in [0, 1] the boundary handler never adds kinetic
    energy to a body, however many walls it hits in the tick, mounted canvas
    or not. *)
Theorem boundary_energy canvas e body :
  0 <= e <= 1 -> 0 <= mass body ->
  kineticEnergy (boundary canvas e body) <= kineticEnergy body.
Proof.
  intros He Hm. apply slower_kineticEnergy; [|done].
  destruct canvas as [c|]; [|apply slower_refl]. unfold boundary.
  eapply slower_trans; [by apply slower_leftWall|].
  eapply slower_trans; [by apply slower_rightWall|].
  eapply slower_trans; [by apply slower_ceilingWall|].
  by apply slower_floorWall.
Qed.

Lemma boundary_energy_witness :
  kineticEnergy (boundary (Some canvasR) 0.7 (bodyR 790 590 30 40 10 20))
  <= kineticEnergy (bodyR 790 590 30 40 10 20).
Proof.
  apply (boundary_energy (Some canvasR) 0.7 (bodyR 790 590 30 40 10 20));
    js_cbn; lra.
Defined.

(** X10: friction only damps.  Whatever the flags and the canvas, neither
    component of the velocity the integrator stores is larger in size than
    the velocity after gravity. *)
Theorem integrate_friction_damps canvas p dt body :
  Rabs (x (velocity (integrate canvas p dt body)))
  <= Rabs (x (gravityVelocity p dt body))
  /\ Rabs (y (velocity (integrate canvas p dt body)))
     <= Rabs (y (gravityVelocity p dt body)).
Proof.
  assert (Hdamp : forall u : R, Rabs (u * 0.9) <= Rabs u).
  { intros u. rewrite Rabs_mult, (Rabs_pos_eq 0.9) by lra.
    pose proof (Rabs_pos u). lra. }
  unfold integrate, applyFriction. js_cbn.
  destruct (frictionEnabled p); js_cbn; [|lra].
  destruct (onGround canvas body), (againstWall canvas body);
    js_cbn; split; solve [apply Hdamp | lra].
Qed.

End BoundaryFacts.

(** ** IEEE-754 binary64: what NaN does to the engine *)

Section NaNFacts.
Implicit Types (a : float) (body bodyA bodyB : Body float).

Lemma float_mul_nan_l a : PrimFloat.mul nan a = nan.
Proof. apply Prim2SF_inj. by rewrite mul_spec, Prim2SF_nan. Qed.

Lemma float_add_nan_l a : PrimFloat.add nan a = nan.
Proof. apply Prim2SF_inj. by rewrite add_spec, Prim2SF_nan. Qed.

Lemma float_add_nan_r a : PrimFloat.add a nan = nan.
Proof.
  apply Prim2SF_inj. rewrite add_spec, Prim2SF_nan.
  unfold SF64add, SFadd. by destruct (Prim2SF a).
Qed.

Lemma float_sub_nan_l a : PrimFloat.sub nan a = nan.
Proof. apply Prim2SF_inj. by rewrite sub_spec, Prim2SF_nan. Qed.

Lemma float_sub_nan_r a : PrimFloat.sub a nan = nan.
Proof.
  apply Prim2SF_inj. rewrite sub_spec, Prim2SF_nan.
  unfold SF64sub, SFsub. by destruct (Prim2SF a).
Qed.

Lemma float_ltb_nan_r a : PrimFloat.ltb a nan = false.
Proof.
  rewrite ltb_spec, Prim2SF_nan. unfold SFltb, SFcompare.
  by destruct (Prim2SF a).
Qed.

(** A force on a mass of 0, divided by that mass, is [0 / 0]. *)
Lemma float_zero_force a :
  PrimFloat.div (PrimFloat.mul 0%float a) 0%float = nan.
Proof.
  apply Prim2SF_inj. rewrite div_spec, mul_spec, Prim2SF_zero.
  unfold SF64div, SFdiv, SF64mul, SFmul.
  by destruct (Prim2SF a) as [[|]|[|]| |[|] m ex].
Qed.

(** X11: the integrator does not look at the mass before dividing by it: one
    tick turns the velocity and the position of a body of mass 0 into NaN,
    whatever the gravity, the friction flag, the canvas and the time step. *)
Theorem integrate_mass_zero canvas p dt body :
  mass body = 0%float ->
  velocity (integrate canvas p dt body) = {| x := nan; y := nan |}
  /\ position (integrate canvas p dt body) = {| x := nan; y := nan |}.
Proof.
  intros Hm.
  assert (Hv : gravityVelocity p dt body = {| x := nan; y := nan |}).
  { unfold gravityVelocity, gravityAcceleration. js_cbn. rewrite Hm.
    by rewrite !float_zero_force, !float_mul_nan_l, !float_add_nan_r. }
  assert (Hf : applyFriction canvas p body (gravityVelocity p dt body)
               = {| x := nan; y := nan |}).
  { unfold applyFriction. rewrite Hv. js_cbn.
    destruct (frictionEnabled p); [|done].
    unfold frictionCoefficient. rewrite !float_mul_nan_l.
    by destruct (onGround canvas body), (againstWall canvas body). }
  unfold integrate. rewrite Hf. js_cbn.
  by rewrite !float_mul_nan_l, !float_add_nan_r.
Qed.

Lemma integrate_mass_zero_witness :
  velocity (integrate (Some canvasF) (paramsF 9.8 true 0.7) 0.5%float
              (bodyF 400 50 1 2 0 20))
  = {| x := nan; y := nan |}
  /\ position (integrate (Some canvasF) (paramsF 9.8 true 0.7) 0.5%float
                 (bodyF 400 50 1 2 0 20))
     = {| x := nan; y := nan |}.
Proof.
  apply (integrate_mass_zero (Some canvasF) (paramsF 9.8 true 0.7) 0.5%float
           (bodyF 400 50 1 2 0 20)).
  reflexivity.
Defined.

(** X12: every wall test is false on NaN: the boundary handler does not
    bring back a body whose position is NaN, it leaves it as it is. *)
Theorem boundary_keeps_nan canvas e body :
  position body = {| x := nan; y := nan |} ->
  boundary canvas e body = body.
Proof.
  intros Hpos. destruct canvas as [c|]; [|done]. unfold boundary.
  assert (Hf : floorWall e c body = body).
  { unfold floorWall. rewrite Hpos. js_cbn.
    by rewrite float_add_nan_l, float_ltb_nan_r. }
  assert (Hc : ceilingWall e body = body).
  { unfold ceilingWall. rewrite Hpos. js_cbn.
    by rewrite float_sub_nan_l, float_ltb_nan_l. }
  assert (Hr : rightWall e c body = body).
  { unfold rightWall. rewrite Hpos. js_cbn.
    by rewrite float_add_nan_l, float_ltb_nan_r. }
  assert (Hl : leftWall e body = body).
  { unfold leftWall. rewrite Hpos. js_cbn.
    by rewrite float_sub_nan_l, float_ltb_nan_l. }
  by rewrite Hf, Hc, Hr, Hl.
Qed.

Lemma boundary_keeps_nan_witness :
  boundary (Some canvasF) 0.7%float (bodyF nan nan 1 2 10 20)
  = bodyF nan nan 1 2 10 20.
Proof.
  apply (boundary_keeps_nan (Some canvasF) 0.7%float
           (bodyF nan nan 1 2 10 20)).
  reflexivity.
Defined.

Lemma distance_nan bodyA bodyB :
  x (position bodyA) = nan \/ y (position bodyA) = nan
  \/ x (position bodyB) = nan \/ y (position bodyB) = nan ->
  distance bodyA bodyB = nan.
Proof.
  unfold distance. js_cbn. intros [Hn|[Hn|[Hn|Hn]]]; rewrite Hn.
  - by rewrite float_sub_nan_l, float_mul_nan_l, float_add_nan_l.
  - by rewrite float_sub_nan_l, float_mul_nan_l, float_add_nan_r.
  - by rewrite float_sub_nan_r, float_mul_nan_l, float_add_nan_l.
  - by rewrite float_sub_nan_r, float_mul_nan_l, float_add_nan_r.
Qed.

(** X13: a body with a NaN coordinate is never found colliding: the
    collision step changes neither it nor the body it is paired with, so
    NaN does not spread from body to body. *)
Theorem resolvePair_nan e bodyA bodyB :
  x (position bodyA) = nan \/ y (position bodyA) = nan
  \/ x (position bodyB) = nan \/ y (position bodyB) = nan ->
  resolvePair e bodyA bodyB = (bodyA, bodyB).
Proof.
  intros Hn. unfold resolvePair, colliding.
  rewrite (distance_nan _ _ Hn). js_cbn. by rewrite float_ltb_nan_l.
Qed.

Lemma resolvePair_nan_witness :
  resolvePair 0.7%float (bodyF nan nan nan nan 0 20) (bodyF 400 50 1 2 10 20)
  = (bodyF nan nan nan nan 0 20, bodyF 400 50 1 2 10 20).
Proof.
  apply (resolvePair_nan 0.7%float (bodyF nan nan nan nan 0 20)
           (bodyF 400 50 1 2 10 20)).
  left. reflexivity.
Defined.

End NaNFacts.

(** ** The pair loops and the store, for every number type *)

Section LoopFacts.
Context {num : Type} `{JSNumber num}.
Implicit Types (body bodyA bodyB : Body num) (bodies : list (Body num)).

(** A loop whose every step gives back the list gives back the list. *)
Lemma foldl_fixed {A} (f : list (Body num) -> A -> list (Body num))
    bodies (l : list A) :
  (forall a, a ∈ l -> f bodies a = bodies) -> foldl f bodies l = bodies.
Proof.
  induction l as [|a l IH]; intros Hf; [done|]. cbn.
  rewrite Hf by apply list_elem_of_here.
  apply IH. intros a' Ha'. apply Hf. by apply list_elem_of_further.
Qed.

Lemma collidePair_not_colliding e i j bodies bodyA bodyB :
  bodies !! i = Some bodyA -> bodies !! j = Some bodyB ->
  colliding bodyA bodyB = false ->
  collidePair e i j bodies = bodies.
Proof.
  intros Hi Hj Hc. unfold collidePair, resolvePair.
  rewrite Hi, Hj, Hc. cbn.
  rewrite (list_insert_id bodies i) by done. by rewrite list_insert_id.
Qed.

(** X14: when no two bodies of the store overlap, the collision pass
    changes nothing at all. *)
Theorem collideAll_no_overlap e bodies :
  (forall i j bodyA bodyB,
     i < j -> bodies !! i = Some bodyA -> bodies !! j = Some bodyB ->
     colliding bodyA bodyB = false) ->
  collideAll e bodies = bodies.
Proof.
  intros Hfree. unfold collideAll. apply foldl_fixed.
  intros i Hi. apply elem_of_seq in Hi as [_ Hi].
  unfold collideRow. apply foldl_fixed.
  intros j Hj. apply elem_of_seq in Hj as [Hij Hj].
  destruct (lookup_lt_is_Some_2 bodies i) as [bodyA HA]; [lia|].
  destruct (lookup_lt_is_Some_2 bodies j) as [bodyB HB]; [lia|].
  eapply collidePair_not_colliding; [done..|].
  eapply Hfree; [|done..]. lia.
Qed.

End LoopFacts.

(** ** Runs of [addBody] *)

Section StoreRunFacts.
Context {num : Type} `{JSNumber num}.
Variable toString36 : num -> string.
Implicit Types (bodies : list (Body num)) (calls : list (num * Body num)).

Lemma length_substring (s : string) :
  forall n m, String.length (substring n m s) <= m.
Proof.
  induction s as [|ch s IH]; intros [|n] [|m]; cbn; try lia.
  - specialize (IH 0 m). lia.
  - apply (IH n 0).
  - apply (IH n (S m)).
Qed.

Lemma addBodies_snoc calls rnd newBody bodies :
  addBodies toString36 (calls ++ [(rnd, newBody)]) bodies
  = addBody toString36 rnd newBody (addBodies toString36 calls bodies).
Proof. unfold addBodies. by rewrite foldl_snoc. Qed.

(** X15: every id the store hands out has at most 9 characters, whatever
    [toString(36)] prints. *)
Theorem addBodies_id_length calls :
  Forall (fun b => String.length (id b) <= 9)
         (addBodies toString36 calls []).
Proof.
  induction calls as [|[rnd newBody] calls IH] using rev_ind; [constructor|].
  rewrite addBodies_snoc. unfold addBody at 1.
  apply Forall_app. split; [exact IH|].
  constructor; [|constructor]. cbn. apply length_substring.
Qed.

(** X16: [addBody] only appends: after a run of calls the store holds the
    bodies it held, then one body per call in call order, each with the
    position, velocity, acceleration, mass, radius and color passed in. *)
Theorem addBodies_fields calls bodies :
  givenFields <$> addBodies toString36 calls bodies
  = (givenFields <$> bodies) ++ (givenFields ∘ snd <$> calls).
Proof.
  induction calls as [|[rnd newBody] calls IH] using rev_ind.
  - cbn. by rewrite app_nil_r.
  - rewrite addBodies_snoc. unfold addBody at 1.
    rewrite !fmap_app, IH, <- app_assoc. reflexivity.
Qed.

End StoreRunFacts.

(** ** The frame loop and the renderer *)

Section FrameLoopFacts.
Context {num : Type} `{JSNumber num}.
Variable lit_1000 : num.
Variable mathPI : num.
Implicit Types (st : LoopState num) (bodies : list (Body num)).

Lemma frame_updatePhysics canvas p dt bodies :
  frame <$> updatePhysics canvas p dt bodies = frame <$> bodies.
Proof.
  unfold updatePhysics. cbn zeta.
  rewrite <- list_fmap_compose.
  rewrite (list_fmap_ext (frame ∘ boundary canvas (elasticity p)) frame)
    by (intros ? b _; apply frame_boundary).
  rewrite frame_collideAll, <- list_fmap_compose.
  apply list_fmap_ext. intros ? b _. apply frame_integrate.
Qed.

Lemma last_default {A} (l : list A) (a d d' : A) :
  List.last (a :: l) d = List.last (a :: l) d'.
Proof.
  revert a. induction l as [|b l IH]; intros a; [done|].
  change (List.last (b :: l) d = List.last (b :: l) d'). apply IH.
Qed.

(** X17: however many frames run and whatever their timestamps, the loop
    neither adds, removes nor reorders bodies, nor touches an id, mass,
    radius, color or stored acceleration; [lastTime] ends at the last
    timestamp. *)
Theorem runFrames_frame canvas p timestamps st :
  frame <$> bodiesRef (runFrames lit_1000 canvas p timestamps st)
  = frame <$> bodiesRef st
  /\ lastTime (runFrames lit_1000 canvas p timestamps st)
     = List.last timestamps (lastTime st).
Proof.
  revert st. induction timestamps as [|t ts IH]; intros st; [done|].
  unfold runFrames in *. cbn [foldl].
  destruct (IH (gameLoop lit_1000 canvas p t st)) as [Hfr Hlast].
  split.
  - rewrite Hfr. cbn. apply frame_updatePhysics.
  - rewrite Hlast. cbn [gameLoop lastTime].
    destruct ts as [|t' ts]; [done|].
    change (List.last (t :: t' :: ts) (lastTime st))
      with (List.last (t' :: ts) (lastTime st)).
    apply last_default.
Qed.

Lemma fills_drawBodies path style bodies :
  fills path style (concat (drawBody mathPI <$> bodies))
  = discOf mathPI <$> bodies.
Proof.
  revert path style. induction bodies as [|b bodies IH]; intros path style;
    [done|].
  cbn. by rewrite IH.
Qed.

(** X18: with a canvas and a context, [draw] first clears the whole canvas
    and then fills one disc per body, in store order: the path filled for a
    body holds the arc of that body alone, round its position, of its
    radius and running the full circle from angle 0 to Math.PI * 2, and the
    fill style is the body's color.  Without a canvas or a context it makes
    no call. *)
Theorem draw_fills c bodies style :
  fills [] style (draw mathPI (Some c) true bodies)
  = discOf mathPI <$> bodies
  /\ head (draw mathPI (Some c) true bodies)
     = Some (ClearRect lit_0 lit_0 (width c) (height c))
  /\ draw mathPI None true bodies = []
  /\ draw mathPI (Some c) false bodies = [].
Proof.
  repeat split. cbn. apply fills_drawBodies.
Qed.

(** The steps of [timeSteps] are the ones the frames of [runFrames] run
    [updatePhysics] with, in order. *)
Lemma runFrames_steps canvas p timestamps st :
  bodiesRef (runFrames lit_1000 canvas p timestamps st)
  = foldl (fun bs dt => updatePhysics canvas p dt bs) (bodiesRef st)
          (timeSteps lit_1000 (lastTime st) timestamps).
Proof.
  revert st. induction timestamps as [|t ts IH]; intros st; [done|].
  unfold runFrames in *. cbn [foldl timeSteps].
  rewrite (IH (gameLoop lit_1000 canvas p t st)). reflexivity.
Qed.

End FrameLoopFacts.

(** ** The frame loop in exact arithmetic *)

Section RunFactsR.
Local Open Scope R_scope.
Implicit Types (st : LoopState R) (body : Body R) (bodies : list (Body R)).

Lemma deltaTime_unset (t : R) : deltaTime 1000 0 t = 0.
Proof.
  unfold deltaTime. js_cbn. unfold Rtruthy.
  rewrite bool_decide_eq_false_2 by (intros Hne; by apply Hne).
  js_cbn. lra.
Qed.

Lemma deltaTime_set (last t : R) :
  last <> 0 -> deltaTime 1000 last t = (t - last) / 1000.
Proof.
  intros Hne. unfold deltaTime. js_cbn. unfold Rtruthy.
  by rewrite bool_decide_eq_true_2.
Qed.

Lemma sumR_timeSteps_from (last : R) (timestamps : list R) :
  last <> 0 -> Forall (fun t => t <> 0) timestamps ->
  sumR (timeSteps 1000 last timestamps)
  = (List.last timestamps last - last) / 1000.
Proof.
  revert last. induction timestamps as [|t ts IH]; intros last Hne Hall.
  - cbn. lra.
  - apply Forall_cons in Hall as [Ht Hts].
    cbn [timeSteps]. unfold sumR. cbn [foldr]. fold (sumR (timeSteps 1000 t ts)).
    rewrite deltaTime_set, (IH t) by done.
    replace (List.last (t :: ts) last) with (List.last ts t); [lra|].
    destruct ts as [|t' ts]; [done|].
    change (List.last (t :: t' :: ts) last) with (List.last (t' :: ts) last).
    apply last_default.
Qed.

(** X19: a run of [gameLoop] frames that starts with [lastTime] unset runs
    [updatePhysics] once per frame, in order, with the time steps
    [timeSteps]: 0 for the first frame, and steps that add up to the span
    between the first and the last timestamp, in seconds, with nothing lost
    or counted twice.  Timestamps are taken different from 0, which
    [gameLoop] reads as unset. *)
Theorem runFrames_simulated_time canvas p (t : R) (timestamps : list R) st :
  lastTime st = 0 ->
  t <> 0 -> Forall (fun u => u <> 0) timestamps ->
  bodiesRef (runFrames 1000 canvas p (t :: timestamps) st)
  = foldl (fun bs dt => updatePhysics canvas p dt bs) (bodiesRef st)
          (timeSteps 1000 0 (t :: timestamps))
  /\ head (timeSteps 1000 0 (t :: timestamps)) = Some 0
  /\ sumR (timeSteps 1000 0 (t :: timestamps))
     = (List.last timestamps t - t) / 1000.
Proof.
  intros Hlast Ht Hts. split; [|split].
  - by rewrite runFrames_steps, Hlast.
  - cbn [timeSteps head]. by rewrite deltaTime_unset.
  - cbn [timeSteps]. unfold sumR. cbn [foldr].
    fold (sumR (timeSteps 1000 t timestamps)).
    rewrite deltaTime_unset, sumR_timeSteps_from by done. lra.
Qed.

Lemma runFrames_simulated_time_witness :
  bodiesRef (runFrames 1000 (Some canvasR) (paramsR 9.8 true 0.7)
               [16; 33; 50]
               {| lastTime := 0; bodiesRef := [bodyR 400 50 0 0 10 20] |})
  = foldl (fun bs dt =>
             updatePhysics (Some canvasR) (paramsR 9.8 true 0.7) dt bs)
          (bodiesRef {| lastTime := 0;
                        bodiesRef := [bodyR 400 50 0 0 10 20] |})
          (timeSteps 1000 0 [16; 33; 50])
  /\ head (timeSteps 1000 0 [16; 33; 50]) = Some 0
  /\ sumR (timeSteps 1000 0 [16; 33; 50])
     = (List.last [33; 50] 16 - 16) / 1000.
Proof.
  apply (runFrames_simulated_time (Some canvasR) (paramsR 9.8 true 0.7) 16
           [33; 50]
           {| lastTime := 0; bodiesRef := [bodyR 400 50 0 0 10 20] |}).
  - reflexivity.
  - lra.
  - repeat constructor; lra.
Defined.

(** X20: the first frame after mounting runs the tick with a time step of 0,
    and a time step of 0 moves no body in the integrator: on that frame only
    the collision and boundary corrections can change a position. *)
Theorem gameLoop_first_frame canvas p (t : R) st :
  lastTime st = 0 ->
  bodiesRef (gameLoop 1000 canvas p t st)
  = updatePhysics canvas p 0 (bodiesRef st)
  /\ forall body, position (integrate canvas p 0 body) = position body.
Proof.
  intros Hlast. split.
  - unfold gameLoop. cbn [bodiesRef]. by rewrite Hlast, deltaTime_unset.
  - intros body. unfold integrate. js_cbn.
    destruct (position body) as [px py]. js_cbn. f_equal; lra.
Qed.

Lemma gameLoop_first_frame_witness :
  bodiesRef (gameLoop 1000 (Some canvasR) (paramsR 9.8 true 0.7) 16
               {| lastTime := 0; bodiesRef := [bodyR 400 50 0 0 10 20] |})
  = updatePhysics (Some canvasR) (paramsR 9.8 true 0.7) 0
      (bodiesRef {| lastTime := 0; bodiesRef := [bodyR 400 50 0 0 10 20] |})
  /\ forall body,
       position (integrate (Some canvasR) (paramsR 9.8 true 0.7) 0 body)
       = position body.
Proof.
  apply (gameLoop_first_frame (Some canvasR) (paramsR 9.8 true 0.7) 16
           {| lastTime := 0; bodiesRef := [bodyR 400 50 0 0 10 20] |}).
  reflexivity.
Defined.

End RunFactsR.

(** ** The collision pass over the whole store, in exact arithmetic *)

Section TotalFacts.
Local Open Scope R_scope.
Implicit Types (body bodyA bodyB : Body R) (bodies : list (Body R))
  (f : Body R -> R) (P : Body R -> Prop).

Lemma total_cons f body bodies :
  total f (body :: bodies) = f body + total f bodies.
Proof. reflexivity. Qed.

Lemma total_insert f bodies i bodyA body :
  bodies !! i = Some bodyA ->
  total f (<[i := body]> bodies) = total f bodies - f bodyA + f body.
Proof.
  revert i. induction bodies as [|b bodies IH]; intros [|i] Hi; try done.
  - injection Hi as ->.
    change (<[0%nat := body]> (bodyA :: bodies)) with (body :: bodies).
    rewrite !total_cons. lra.
  - change (<[S i := body]> (b :: bodies)) with (b :: <[i := body]> bodies).
    rewrite !total_cons, (IH i Hi). lra.
Qed.

Lemma total_opp f bodies :
  total (fun b => - f b) bodies = - total f bodies.
Proof.
  induction bodies as [|b bodies IH]; [cbn; lra|].
  rewrite !total_cons, IH. lra.
Qed.

(** One pair of the loops: a quantity that the resolution of a pair does not
    raise is not raised in total; [P] is what the bodies must satisfy for
    that and keep satisfying. *)
Lemma collidePair_total_le f P e i j bodies :
  (forall bodyA bodyB, P bodyA -> P bodyB ->
     P (fst (resolvePair e bodyA bodyB)) /\ P (snd (resolvePair e bodyA bodyB))
     /\ f (fst (resolvePair e bodyA bodyB)) + f (snd (resolvePair e bodyA bodyB))
        <= f bodyA + f bodyB) ->
  i <> j -> Forall P bodies ->
  Forall P (collidePair e i j bodies)
  /\ total f (collidePair e i j bodies) <= total f bodies.
Proof.
  intros Hpair Hij HP. unfold collidePair.
  destruct (bodies !! i) as [bodyA|] eqn:Hi; [|split; [done|lra]].
  destruct (bodies !! j) as [bodyB|] eqn:Hj; [|split; [done|lra]].
  cbn zeta.
  destruct (Hpair bodyA bodyB) as (HPA & HPB & Hle).
  { by eapply Forall_lookup_1. }
  { by eapply Forall_lookup_1. }
  split.
  - apply Forall_insert; [apply Forall_insert|]; done.
  - rewrite (total_insert f _ j bodyB)
      by (by rewrite list_lookup_insert_ne).
    rewrite (total_insert f _ i bodyA) by done. lra.
Qed.

Lemma collideAll_total_le f P e bodies :
  (forall bodyA bodyB, P bodyA -> P bodyB ->
     P (fst (resolvePair e bodyA bodyB)) /\ P (snd (resolvePair e bodyA bodyB))
     /\ f (fst (resolvePair e bodyA bodyB)) + f (snd (resolvePair e bodyA bodyB))
        <= f bodyA + f bodyB) ->
  Forall P bodies ->
  Forall P (collideAll e bodies)
  /\ total f (collideAll e bodies) <= total f bodies.
Proof.
  intros Hpair.
  assert (Hrow : forall i js bs,
            Forall (fun j => i <> j) js -> Forall P bs ->
            Forall P (foldl (fun bs j => collidePair e i j bs) bs js)
            /\ total f (foldl (fun bs j => collidePair e i j bs) bs js)
               <= total f bs).
  { intros i js. induction js as [|j js IH]; intros bs Hjs HP;
      [split; [done|apply Rle_refl]|].
    apply Forall_cons in Hjs as [Hij Hjs]. cbn [foldl].
    destruct (collidePair_total_le f P e i j bs Hpair Hij HP) as [HP' Hle].
    destruct (IH _ Hjs HP') as [HP'' Hle']. split; [done|lra]. }
  assert (Hall : forall is_ bs,
            Forall P bs ->
            Forall P (foldl (collideRow e) bs is_)
            /\ total f (foldl (collideRow e) bs is_) <= total f bs).
  { intros is_. induction is_ as [|i is_ IH]; intros bs HP;
      [split; [done|apply Rle_refl]|].
    cbn [foldl].
    destruct (Hrow i (seq (S i) (length bs - S i)) bs) as [HP' Hle];
      [|done|].
    { apply Forall_forall. intros j Hj.
      apply elem_of_seq in Hj. lia. }
    destruct (IH (collideRow e bs i) HP') as [HP'' Hle'].
    split; [done|].
    change (total f (collideRow e bs i) <= total f bs) in Hle. lra. }
  intros HP. apply Hall, HP.
Qed.

Lemma resolvePair_mass e bodyA bodyB :
  mass (fst (resolvePair e bodyA bodyB)) = mass bodyA
  /\ mass (snd (resolvePair e bodyA bodyB)) = mass bodyB.
Proof.
  destruct (frame_resolvePair e bodyA bodyB) as [HA HB].
  unfold frame in HA, HB. split; congruence.
Qed.

(** The momentum of a pair along each axis, before and after. *)
Lemma resolvePair_momentum_axes e bodyA bodyB :
  0 < mass bodyA -> 0 < mass bodyB ->
  let r := resolvePair e bodyA bodyB in
  mass (fst r) * x (velocity (fst r)) + mass (snd r) * x (velocity (snd r))
  = mass bodyA * x (velocity bodyA) + mass bodyB * x (velocity bodyB)
  /\ mass (fst r) * y (velocity (fst r)) + mass (snd r) * y (velocity (snd r))
     = mass bodyA * y (velocity bodyA) + mass bodyB * y (velocity bodyB).
Proof.
  intros HmA HmB r. subst r. unfold resolvePair.
  destruct (colliding bodyA bodyB); [|done].
  js_cbn. destruct (Rltb _ _); [|done].
  unfold separate, applyImpulse. js_cbn. split; field; lra.
Qed.

(** X21: the collision pass conserves the total momentum of the store, along
    each axis, when every mass is positive: however many pairs it resolves
    and in whatever state the earlier pairs left the later ones. *)
Theorem collideAll_momentum e bodies :
  Forall (fun b => 0 < mass b) bodies ->
  total (fun b => mass b * x (velocity b)) (collideAll e bodies)
  = total (fun b => mass b * x (velocity b)) bodies
  /\ total (fun b => mass b * y (velocity b)) (collideAll e bodies)
     = total (fun b => mass b * y (velocity b)) bodies.
Proof.
  intros Hm.
  assert (Heq : forall g : Body R -> R,
            (forall bodyA bodyB, 0 < mass bodyA -> 0 < mass bodyB ->
               g (fst (resolvePair e bodyA bodyB))
               + g (snd (resolvePair e bodyA bodyB)) = g bodyA + g bodyB) ->
            total g (collideAll e bodies) = total g bodies).
  { intros g Hg. apply Rle_antisym.
    - apply (collideAll_total_le g (fun b => 0 < mass b)); [|done].
      intros bodyA bodyB HA HB.
      destruct (resolvePair_mass e bodyA bodyB) as [-> ->].
      rewrite Hg by done. repeat split; [done..|lra].
    - apply Ropp_le_cancel. rewrite <- !total_opp.
      apply (collideAll_total_le (fun b => - g b) (fun b => 0 < mass b));
        [|done].
      intros bodyA bodyB HA HB.
      destruct (resolvePair_mass e bodyA bodyB) as [-> ->].
      specialize (Hg bodyA bodyB HA HB). repeat split; [done..|lra]. }
  split; apply Heq; intros bodyA bodyB HA HB;
    by destruct (resolvePair_momentum_axes e bodyA bodyB HA HB).
Qed.

(** The kinetic energy of a pair does not grow, colliding or not. *)
Lemma resolvePair_energy_le e bodyA bodyB :
  0 <= e <= 1 -> 0 < mass bodyA -> 0 < mass bodyB ->
  kineticEnergy (fst (resolvePair e bodyA bodyB))
  + kineticEnergy (snd (resolvePair e bodyA bodyB))
  <= kineticEnergy bodyA + kineticEnergy bodyB.
Proof.
  intros He HmA HmB.
  destruct (colliding bodyA bodyB) eqn:Hc;
    [destruct (Rlt_le_dec (dotProduct bodyA bodyB) 0) as [Hdot|Hdot]|].
  - rewrite resolvePair_energy_delta by done.
    assert (0 < 1 / mass bodyA) by (apply Rdiv_lt_0_compat; lra).
    assert (0 < 1 / mass bodyB) by (apply Rdiv_lt_0_compat; lra).
    assert (Hq : 0 < dotProduct bodyA bodyB * dotProduct bodyA bodyB
                     / (2 * (1 / mass bodyA + 1 / mass bodyB))).
    { apply Rdiv_lt_0_compat; nra. }
    destruct (restitution_loss e _ He Hq) as [Hle _]. lra.
  - unfold resolvePair. rewrite Hc. js_cbn. rewrite Rltb_false by done.
    js_cbn. lra.
  - unfold resolvePair. rewrite Hc. js_cbn. lra.
Qed.

(** X22: for an elasticity in [0, 1] and positive masses the collision pass
    never raises the total kinetic energy of the store. *)
Theorem collideAll_energy e bodies :
  0 <= e <= 1 ->
  Forall (fun b => 0 < mass b) bodies ->
  total kineticEnergy (collideAll e bodies) <= total kineticEnergy bodies.
Proof.
  intros He Hm.
  apply (collideAll_total_le kineticEnergy (fun b => 0 < mass b)); [|done].
  intros bodyA bodyB HA HB.
  destruct (resolvePair_mass e bodyA bodyB) as [-> ->].
  repeat split; [done..|]. by apply resolvePair_energy_le.
Qed.

End TotalFacts.

(** ** The theorems on whole stores, at concrete stores *)

Lemma collideAll_no_overlap_witness :
  collideAll 0.7%float [bodyF 100 300 1 0 10 20; bodyF 500 300 (-1) 0 10 20]
  = [bodyF 100 300 1 0 10 20; bodyF 500 300 (-1) 0 10 20].
Proof.
  apply (collideAll_no_overlap 0.7%float
           [bodyF 100 300 1 0 10 20; bodyF 500 300 (-1) 0 10 20]).
  intros i j bodyA bodyB Hlt Hi Hj.
  destruct i as [|[|i]], j as [|[|j]]; cbn in Hi, Hj;
    try lia; try discriminate.
  injection Hi as <-. injection Hj as <-. vm_compute. reflexivity.
Defined.

Lemma collideAll_momentum_witness :
  total (fun b => mass b * x (velocity b))%R
        (collideAll 0.7%R [leftBody 5 10; rightBody (-5) 4])
  = total (fun b => mass b * x (velocity b))%R
          [leftBody 5 10; rightBody (-5) 4]
  /\ total (fun b => mass b * y (velocity b))%R
           (collideAll 0.7%R [leftBody 5 10; rightBody (-5) 4])
     = total (fun b => mass b * y (velocity b))%R
             [leftBody 5 10; rightBody (-5) 4].
Proof.
  apply (collideAll_momentum 0.7%R [leftBody 5 10; rightBody (-5) 4]).
  repeat constructor; js_cbn; lra.
Defined.

Lemma collideAll_energy_witness :
  (total kineticEnergy (collideAll 0.7 [leftBody 5 10; rightBody (-5) 4])
   <= total kineticEnergy [leftBody 5 10; rightBody (-5) 4])%R.
Proof.
  apply (collideAll_energy 0.7%R [leftBody 5 10; rightBody (-5) 4]).
  - lra.
  - repeat constructor; js_cbn; lra.
Defined.

(** ** Friction without a canvas *)

Section NoCanvasFacts.
Local Open Scope R_scope.
Implicit Types (body : Body R) (p : Params R).

(** X23: before the canvas is mounted the friction guards read width and
    height as 0: with friction on, a body whose lower edge is at -1 or below
    it (position.y + radius >= -1) has its x velocity scaled by 0.9, and a
    body with position.x + radius >= -1 or position.x - radius <= 1 its y
    velocity; on the canvas' own coordinates that is every body. *)
Theorem integrate_friction_no_canvas p dt body :
  frictionEnabled p = true ->
  (-1 <= y (position body) + radius body ->
   x (velocity (integrate None p dt body))
   = x (gravityVelocity p dt body) * 0.9)
  /\ (-1 <= x (position body) + radius body
      \/ x (position body) - radius body <= 1 ->
      y (velocity (integrate None p dt body))
      = y (gravityVelocity p dt body) * 0.9).
Proof.
  intros Hfr. unfold integrate, applyFriction. rewrite Hfr.
  cbn [velocity x y]. unfold onGround, againstWall, canvasHeight, canvasWidth.
  cbn [fmap option_fmap option_map orZero]. js_cbn. split.
  - intros Hy. rewrite Rleb_true by lra. done.
  - intros [Hx|Hx].
    + rewrite Rleb_true by lra. done.
    + rewrite (Rleb_true _ 1) by done. by rewrite orb_true_r.
Qed.

Lemma integrate_friction_no_canvas_witness :
  x (velocity (integrate None (paramsR 9.8 true 0.7) (1 / 60)
                 (bodyR 400 50 10 0 10 20)))
  = x (gravityVelocity (paramsR 9.8 true 0.7) (1 / 60)
         (bodyR 400 50 10 0 10 20)) * 0.9
  /\ y (velocity (integrate None (paramsR 9.8 true 0.7) (1 / 60)
                    (bodyR 400 50 10 0 10 20)))
     = y (gravityVelocity (paramsR 9.8 true 0.7) (1 / 60)
            (bodyR 400 50 10 0 10 20)) * 0.9.
Proof.
  destruct (integrate_friction_no_canvas (paramsR 9.8 true 0.7) (1 / 60)
              (bodyR 400 50 10 0 10 20) eq_refl) as [Hx Hy].
  split.
  - apply Hx. js_cbn. lra.
  - apply Hy. left. js_cbn. lra.
Defined.

End NoCanvasFacts.

(** ** Binary64 against the exact-arithmetic readings

    The theorems on momentum, energy, the velocity exchange and containment
    are statements of exact arithmetic.  Run on binary64, as the program
    is, the same pairs and bodies give the following. *)

(** C3 as stated fails on binary64: masses 3 and 7 meeting at velocities 2
    and -1 with elasticity 1 have total momentum -1 before the impulse and
    -0.99999999999999911 after it. *)
Lemma resolvePair_momentum_counterexample :
  colliding (leftBodyF 2 3) (rightBodyF (-1) 7) = true
  /\ PrimFloat.ltb (dotProduct (leftBodyF 2 3) (rightBodyF (-1) 7)) 0 = true
  /\ momentumF (leftBodyF 2 3) (rightBodyF (-1) 7)
     = {| x := (-1)%float; y := 0%float |}
  /\ momentumF
       (fst (resolvePair 1%float (leftBodyF 2 3) (rightBodyF (-1) 7)))
       (snd (resolvePair 1%float (leftBodyF 2 3) (rightBodyF (-1) 7)))
     = {| x := (-0.99999999999999911)%float; y := 0%float |}
  /\ momentumF
       (fst (applyImpulse 1%float (leftBodyF 2 3) (rightBodyF (-1) 7)))
       (snd (applyImpulse 1%float (leftBodyF 2 3) (rightBodyF (-1) 7)))
     = {| x := (-0.99999999999999911)%float; y := 0%float |}
  /\ PrimFloat.eqb (-0.99999999999999911) (-1) = false.
Proof. repeat split; vm_compute; reflexivity. Qed.

(** C4 as stated fails on binary64: two bodies of mass 3 meeting head-on at
    speed 0.1 along the normal (1, 0), resolved with elasticity 1, leave
    with -0.10000000000000003 and 0.10000000000000003, not with each
    other's -0.1 and 0.1. *)
Lemma resolvePair_head_on_swap_counterexample :
  colliding (leftBodyF 0.1 3) (rightBodyF (-0.1) 3) = true
  /\ normal (leftBodyF 0.1 3) (rightBodyF (-0.1) 3)
     = {| x := 1%float; y := 0%float |}
  /\ velocity (leftBodyF 0.1 3) = {| x := 0.1%float; y := 0%float |}
  /\ velocity (rightBodyF (-0.1) 3) = {| x := (-0.1)%float; y := 0%float |}
  /\ velocity (fst (resolvePair 1%float (leftBodyF 0.1 3)
                      (rightBodyF (-0.1) 3)))
     = {| x := (-0.10000000000000003)%float; y := 0%float |}
  /\ velocity (snd (resolvePair 1%float (leftBodyF 0.1 3)
                      (rightBodyF (-0.1) 3)))
     = {| x := 0.10000000000000003%float; y := 0%float |}
  /\ PrimFloat.eqb (-0.10000000000000003) (-0.1) = false
  /\ PrimFloat.eqb 0.10000000000000003 0.1 = false.
Proof. repeat split; vm_compute; reflexivity. Qed.

(** C5 as stated fails on binary64: masses 10 and 4 meeting at velocities 5
    and -5 with elasticity 1 have kinetic energy 175 before the collision
    and 175.00000000000003 after it: more, and not equal although
    elasticity = 1. *)
Lemma resolvePair_energy_counterexample :
  colliding (leftBodyF 5 10) (rightBodyF (-5) 4) = true
  /\ PrimFloat.ltb (dotProduct (leftBodyF 5 10) (rightBodyF (-5) 4)) 0 = true
  /\ PrimFloat.add (kineticEnergyF (leftBodyF 5 10))
                   (kineticEnergyF (rightBodyF (-5) 4))
     = 175%float
  /\ PrimFloat.add
       (kineticEnergyF
          (fst (resolvePair 1%float (leftBodyF 5 10) (rightBodyF (-5) 4))))
       (kineticEnergyF
          (snd (resolvePair 1%float (leftBodyF 5 10) (rightBodyF (-5) 4))))
     = 175.00000000000003%float
  /\ PrimFloat.ltb 175 175.00000000000003 = true.
Proof. repeat split; vm_compute; reflexivity. Qed.

(** Containment needs exact arithmetic too: on binary64 a body of mass 0,
    small enough for the world, ends its first moving tick at (NaN, NaN),
    which no wall test brings back. *)
Example updatePhysics_mass_zero_binary64 :
  position <$> updatePhysics (Some canvasF) (paramsF 9.8 true 0.7) 0.5%float
                 [bodyF 400 50 0 0 0 20]
  = [{| x := nan; y := nan |}].
Proof. vm_compute. reflexivity. Qed.
